(** * The abuse-admission gate of the temp-mail backend

    Shallow embedding of the two mailbox-creation routes of
    [backend/src/routes/emails.js] ([router.post('/create')] and
    [router.post('/public/create')]) together with the in-memory
    [rateLimitStore] they mutate, followed by the properties of the
    admission gate.

    The handlers are embedded from the source.  The middleware modules
    they import ([../middleware/rateLimit.js], [../middleware/auth.js])
    and the connection pool ([../db/init.js]) are not part of the
    sources at hand; they are either taken as parameters or modelled from
    the specification, and every such definition says so. *)

From stdpp Require Import gmap strings list fin_maps pretty.

Open Scope string_scope.

(** ** JavaScript values that reach the handlers *)

Module Js.

(** The JSON values a request body field or a [res.locals] slot can
    hold.  Objects and arrays are always truthy and never inspected by
    the handlers, so one constructor stands for all of them. *)
Inductive value :=
| Undefined
| Null
| Bool (b : bool)
| Num (n : Z)
| Str (s : string)
| Obj.

(** [ToBoolean]: what [if (v)], [!v] and [v && w] test. *)
Definition truthy (v : value) : bool :=
  match v with
  | Undefined | Null => false
  | Bool b => b
  | Num n => negb (n =? 0)%Z
  | Str s => negb (String.eqb s "")
  | Obj => true
  end.

(** [a || b] on the two address sources, each a string or [undefined]. *)
Definition or_else (a b : option string) : option string :=
  match a with
  | Some s => if String.eqb s "" then b else Some s
  | None => b
  end.

(** [ToPropertyKey] for [obj[k]] when [k] is a string or [undefined]. *)
Definition property_key (k : option string) : string :=
  match k with
  | Some s => s
  | None => "undefined"
  end.

(** The property names a plain object inherits from [Object.prototype];
    each of them reads as a function, or for [__proto__] as the prototype
    itself, hence as a truthy value that is not a record. *)
Definition object_prototype : list string :=
  ["constructor"; "__proto__"; "hasOwnProperty"; "isPrototypeOf";
   "propertyIsEnumerable"; "toLocaleString"; "toString"; "valueOf";
   "__defineGetter__"; "__defineSetter__"; "__lookupGetter__";
   "__lookupSetter__"].

Definition inherited (k : string) : bool :=
  existsb (String.eqb k) object_prototype.

End Js.

(** ** The rate-limit store *)

(** One entry of [rateLimitStore.limits] / [rateLimitStore.userLimits].
    The handlers write [count] and [captchaRequired]; [windowStart] stands
    for what else the entry carries (section 3 of the specification) and
    is never touched by the routes. *)
Record CounterRecord := mkRecord {
  count : nat;
  windowStart : Z;
  captchaRequired : bool
}.

(** [rateLimitStore]: two plain objects used as maps, one keyed by client
    address and one keyed by user id. *)
Record RateLimitStore := mkStore {
  limits : gmap string CounterRecord;
  userLimits : gmap string CounterRecord
}.

Inductive Table := Limits | UserLimits.

#[global] Instance Table_eq_dec : EqDecision Table.
Proof. solve_decision. Defined.

Definition table (t : Table) (st : RateLimitStore) : gmap string CounterRecord :=
  match t with
  | Limits => limits st
  | UserLimits => userLimits st
  end.

Definition set_table (t : Table) (m : gmap string CounterRecord)
    (st : RateLimitStore) : RateLimitStore :=
  match t with
  | Limits => mkStore m (userLimits st)
  | UserLimits => mkStore (limits st) m
  end.

(** [if (rateLimitStore.<t>[k])]: an entry is an object, hence truthy;
    without an entry the lookup walks up to [Object.prototype], so a key
    that names an inherited property reads as a truthy value too, and any
    other key as [undefined]. *)
Definition has_entry (t : Table) (k : string) (st : RateLimitStore) : bool :=
  match table t st !! k with
  | Some _ => true
  | None => Js.inherited k
  end.

(** The assignments the route handlers perform on an entry, in the form
    they have in the source: [rateLimitStore.<t>[k].count = v] and
    [rateLimitStore.<t>[k].captchaRequired = v]. *)
Inductive FieldWrite :=
| WriteCount (t : Table) (k : string) (v : nat)
| WriteCaptchaRequired (t : Table) (k : string) (v : bool).

Definition write_table (w : FieldWrite) : Table :=
  match w with
  | WriteCount t _ _ => t
  | WriteCaptchaRequired t _ _ => t
  end.

Definition write_key (w : FieldWrite) : string :=
  match w with
  | WriteCount _ k _ => k
  | WriteCaptchaRequired _ k _ => k
  end.

Definition apply_field (w : FieldWrite) (r : CounterRecord) : CounterRecord :=
  match w with
  | WriteCount _ _ v => mkRecord v (windowStart r) (captchaRequired r)
  | WriteCaptchaRequired _ _ v => mkRecord (count r) (windowStart r) v
  end.

(** One assignment.  With an entry under the key, the entry is updated.
    Without one, a key that names an inherited property makes the
    assignment land on that inherited object, outside the two tables,
    which stay as they are; through any other key the assignment is a
    [TypeError] ([None] here).  No assignment creates an entry. *)
Definition write (w : FieldWrite) (st : RateLimitStore) : option RateLimitStore :=
  match table (write_table w) st !! write_key w with
  | Some r =>
      Some (set_table (write_table w)
              (<[write_key w := apply_field w r]> (table (write_table w) st)) st)
  | None => if Js.inherited (write_key w) then Some st else None
  end.

(** A block of assignments; the flag tells whether one of them threw, and
    the store is the one reached when it did. *)
Fixpoint run_writes (ws : list FieldWrite) (st : RateLimitStore)
    : RateLimitStore * bool :=
  match ws with
  | [] => (st, false)
  | w :: ws' =>
      match write w st with
      | Some st' => run_writes ws' st'
      | None => (st, true)
      end
  end.

(** The two statements under each guard of the routes. *)
Definition reset_writes (t : Table) (k : string) : list FieldWrite :=
  [WriteCount t k 0; WriteCaptchaRequired t k false].

(** ** Requests and responses *)

Record User := mkUser { user_id : string }.

Record Request := mkRequest {
  user : option User;                 (* req.user *)
  xForwardedFor : option string;      (* req.headers['x-forwarded-for'] *)
  remoteAddress : option string;      (* req.connection.remoteAddress *)
  email : Js.value;                   (* req.body.email *)
  domainId : Js.value;                (* req.body.domainId *)
  captchaResponse : Js.value          (* req.body.captchaResponse *)
}.

Record Locals := mkLocals {
  locals_captchaRequired : Js.value;  (* res.locals.captchaRequired *)
  locals_captchaSiteKey : Js.value    (* res.locals.captchaSiteKey *)
}.

(** A row of [temp_emails] as the two INSERT statements fill it. *)
Record TempEmail := mkTempEmail {
  te_id : string;
  te_user_id : option string;
  te_email : Js.value;
  te_domain_id : Js.value;
  te_expires_at : Z
}.

Inductive Body :=
| CaptchaBody (error : string) (required : bool) (siteKey : Js.value)
    (message : string)
| ErrorBody (error : string)
| RowBody (row : option TempEmail).

Record Response := mkResponse {
  status : nat;
  body : Body
}.

(** [res.json(x)] without [res.status]: status 200. *)
Definition json (b : Body) : Response := mkResponse 200 b.

(** What one run of a handler leaves behind. *)
Record Outcome (Db : Type) := mkOutcome {
  response : Response;
  store : RateLimitStore;
  db : Db;
  writes : list FieldWrite
}.
Arguments mkOutcome {Db}.
Arguments response {Db}.
Arguments store {Db}.
Arguments db {Db}.
Arguments writes {Db}.

(** [const clientIp = req.headers['x-forwarded-for'] || req.connection.remoteAddress] *)
Definition clientIp (req : Request) : option string :=
  Js.or_else (xForwardedFor req) (remoteAddress req).

(** ** The creation handlers *)

(** The guarded block that occurs three times in the routes:
    [if (rateLimitStore.<t>[k]) { ....count = 0; ....captchaRequired = false; }]
    The test is one of truthiness, so the two assignments run for a key
    with a record and also for a key that only names an inherited
    property. *)
Definition guarded_reset (t : Table) (k : string) (st : RateLimitStore)
    : list FieldWrite :=
  if has_entry t k st then reset_writes t k else [].

(** Lines 84-100 of [/create]: which assignments the handler performs. *)
Definition create_writes (req : Request) (st : RateLimitStore) : list FieldWrite :=
  if Js.truthy (captchaResponse req) then
    match user req with
    | Some u => guarded_reset UserLimits (user_id u) st
    | None => guarded_reset Limits (Js.property_key (clientIp req)) st
    end
  else [].

(** Lines 311-317 of [/public/create]. *)
Definition public_create_writes (req : Request) (st : RateLimitStore)
    : list FieldWrite :=
  if Js.truthy (captchaResponse req) then
    guarded_reset Limits (Js.property_key (clientIp req)) st
  else [].

(** The table and key under which each route looks the caller up. *)
Definition create_identity (req : Request) : Table * string :=
  match user req with
  | Some u => (UserLimits, user_id u)
  | None => (Limits, Js.property_key (clientIp req))
  end.

Definition public_identity (req : Request) : Table * string :=
  (Limits, Js.property_key (clientIp req)).

Definition failed_to_create : Response :=
  mkResponse 400 (ErrorBody "Failed to create temporary email").

Definition captcha_required (siteKey : Js.value) : Response :=
  mkResponse 400
    (CaptchaBody "CAPTCHA_REQUIRED" true siteKey
       "You have exceeded the rate limit. Please complete the CAPTCHA.").

(** What the runtime hands to one request: the [uuidv4()] drawn and the
    clock read by [new Date()]. *)
Record Env := mkEnv {
  newId : string;
  now : Z
}.

Section Handlers.

(** The connection pool of [../db/init.js] is taken as a parameter: a
    database state, and the two queries the routes issue, each of which
    may reject ([None]), which lands in the handler's [catch]. *)
Context {Db : Type}.
Variable insert_temp_email : Db -> TempEmail -> option Db.
Variable select_temp_email : Db -> string -> option (list TempEmail).

(** [Date] arithmetic of the runtime: [setMonth(getMonth() + 2)] and
    [setHours(getHours() + 48)]. *)
Variable plus_two_months : Z -> Z.
Variable plus_48_hours : Z -> Z.

(** The INSERT followed by the SELECT and [res.json(createdEmail[0])];
    a rejected query ends in the [catch] with status 400. *)
Definition insert_and_reply (row : TempEmail) (st : RateLimitStore) (d : Db)
    (ws : list FieldWrite) : Outcome Db :=
  match insert_temp_email d row with
  | None => mkOutcome failed_to_create st d ws
  | Some d' =>
      match select_temp_email d' (te_id row) with
      | None => mkOutcome failed_to_create st d' ws
      | Some rows => mkOutcome (json (RowBody (head rows))) st d' ws
      end
  end.

(** [router.post('/create', ...)], lines 74-117. *)
Definition post_create (env : Env) (req : Request) (st : RateLimitStore)
    (d : Db) : Outcome Db :=
  let ws := create_writes req st in
  match run_writes ws st with
  | (st', true) => mkOutcome failed_to_create st' d ws
  | (st', false) =>
      match user req with
      | None =>
          (* [req.user.id] in the INSERT parameters throws *)
          mkOutcome failed_to_create st' d ws
      | Some u =>
          insert_and_reply
            (mkTempEmail (newId env) (Some (user_id u)) (email req)
               (domainId req) (plus_two_months (now env)))
            st' d ws
      end
  end.

(** [router.post('/public/create', ...)], lines 291-334. *)
Definition post_public_create (env : Env) (req : Request) (locals : Locals)
    (st : RateLimitStore) (d : Db) : Outcome Db :=
  if Js.truthy (locals_captchaRequired locals)
     && negb (Js.truthy (captchaResponse req))
  then mkOutcome (captcha_required (locals_captchaSiteKey locals)) st d []
  else
    let ws := public_create_writes req st in
    match run_writes ws st with
    | (st', true) => mkOutcome failed_to_create st' d ws
    | (st', false) =>
        insert_and_reply
          (mkTempEmail (newId env) None (email req) (domainId req)
             (plus_48_hours (now env)))
          st' d ws
    end.

End Handlers.

(** ** The routes: middleware chain, then handler *)

(** What a middleware leaves to the rest of the chain: it answers the
    request itself, or calls [next()] with [res.locals] filled in.  Both
    leave a store behind. *)
Inductive Middleware :=
| Ended (resp : Response) (st : RateLimitStore)
| Next (locals : Locals) (st : RateLimitStore).

(** The request as the authentication layer hands it on: [req.user] set
    to the principal it found, or left unset. *)
Definition with_user (u : option User) (req : Request) : Request :=
  mkRequest u (xForwardedFor req) (remoteAddress req) (email req)
    (domainId req) (captchaResponse req).

Section Routes.

Context {Db : Type}.
Variable insert_temp_email : Db -> TempEmail -> option Db.
Variable select_temp_email : Db -> string -> option (list TempEmail).
Variable plus_two_months : Z -> Z.
Variable plus_48_hours : Z -> Z.

(** Modelled from the spec: [authenticateToken] of [../middleware/auth.js]
    is missing.  It is the "authenticated-principal lookup (from the
    session/auth layer) supplying a stable user identifier or its absence"
    of section 6, placed in front of a route: it answers the request
    itself, or calls [next()] with [req.user] set to the principal it
    found, or left unset when it found none. *)
Variable authenticateToken : Request -> Response + option User.

(** The chain [rateLimitMiddleware, checkCaptchaRequired, verifyCaptcha]
    of [../middleware/rateLimit.js], taken as one parameter. *)
Variable gate : Request -> RateLimitStore -> Middleware.

(** [router.post('/create', authenticateToken, rateLimitMiddleware,
    checkCaptchaRequired, verifyCaptcha, handler)] *)
Definition create_route (env : Env) (req : Request) (st : RateLimitStore)
    (d : Db) : Outcome Db :=
  match authenticateToken req with
  | inl resp => mkOutcome resp st d []
  | inr u =>
      match gate (with_user u req) st with
      | Ended resp st' => mkOutcome resp st' d []
      | Next _ st' =>
          post_create insert_temp_email select_temp_email plus_two_months
            env (with_user u req) st' d
      end
  end.

(** [router.post('/public/create', rateLimitMiddleware,
    checkCaptchaRequired, verifyCaptcha, handler)] *)
Definition public_create_route (env : Env) (req : Request)
    (st : RateLimitStore) (d : Db) : Outcome Db :=
  match gate req st with
  | Ended resp st' => mkOutcome resp st' d []
  | Next locals st' =>
      post_public_create insert_temp_email select_temp_email plus_48_hours
        env req locals st' d
  end.

End Routes.

(** ** The admission core as the specification describes it *)

Module Gate.

(** Modelled from the spec: the Counter Store operations of section 4.2.
    [../middleware/rateLimit.js], which owns [rateLimitStore] and counts
    requests, is missing.  The identity key ["user:<id>"] / ["ip:<address>"]
    of the specification is the pair of a table of [rateLimitStore] and a
    key in it. *)
Definition get (t : Table) (k : string) (st : RateLimitStore)
    : option CounterRecord :=
  table t st !! k.

(** Modelled from the spec: the "zero-initialized record" [observe] creates
    for a key it has not seen; its window starts at the time of the call. *)
Definition zero_record (now : Z) : CounterRecord := mkRecord 0 now false.

(** Modelled from the spec: the increment of [count] by [observe]. *)
Definition increment (r : CounterRecord) : CounterRecord :=
  mkRecord (S (count r)) (windowStart r) (captchaRequired r).

(** Modelled from the spec: [observe(key)] "increments count for key
    (creating a zero-initialized record first if absent) and returns the
    post-increment record". *)
Definition observe (now : Z) (t : Table) (k : string) (st : RateLimitStore)
    : CounterRecord * RateLimitStore :=
  let r := increment (default (zero_record now) (get t k st)) in
  (r, set_table t (<[k := r]> (table t st)) st).

(** Modelled from the spec: [markChallenged(key)] "sets
    captchaRequired = true for the record at key". *)
Definition markChallenged (t : Table) (k : string) (st : RateLimitStore)
    : RateLimitStore :=
  set_table t
    (alter (fun r => mkRecord (count r) (windowStart r) true) k (table t st)) st.

(** Modelled from the spec: [reset(key)] "sets count = 0 and
    captchaRequired = false". *)
Definition reset (t : Table) (k : string) (st : RateLimitStore)
    : RateLimitStore :=
  set_table t
    (alter (fun r => mkRecord 0 (windowStart r) false) k (table t st)) st.

(** Modelled from the spec: the policy of section 4.3 with its
    [challengeThreshold], and the public site configuration value of
    section 6. *)
Record Policy := mkPolicy {
  challengeThreshold : nat;
  captchaSiteKey : string
}.

(** Modelled from the spec: the admission verdict of section 4.3. *)
Inductive Verdict := Allow | Challenge | Deny.

(** Modelled from the spec: the Admission Evaluator of section 4.3, its
    three rules in their order.  [Deny] is "reserved for a hard ceiling"
    whose existence and value section 9 leaves to the implementer; no
    rule of 4.3 produces it. *)
Definition evaluate (r : CounterRecord) (p : Policy) : Verdict :=
  if captchaRequired r then Challenge
  else if (challengeThreshold p <=? count r)%nat then Challenge
  else Allow.

(** Modelled from the spec: the side effect of the second rule of 4.3,
    "the Store is instructed to markChallenged(key)" when the threshold
    is first crossed. *)
Definition evaluate_and_mark (p : Policy) (t : Table) (k : string)
    (r : CounterRecord) (st : RateLimitStore) : Verdict * RateLimitStore :=
  if captchaRequired r then (Challenge, st)
  else if (challengeThreshold p <=? count r)%nat then (Challenge, markChallenged t k st)
  else (Allow, st).

(** Modelled from the spec: the record an evaluation leaves in the store,
    flagged once the threshold is reached, otherwise as it was. *)
Definition settle (p : Policy) (r : CounterRecord) : CounterRecord :=
  if captchaRequired r then r
  else if (challengeThreshold p <=? count r)%nat
       then mkRecord (count r) (windowStart r) true
       else r.

(** Modelled from the spec: one observe-plus-evaluate cycle seen from the
    caller's record. *)
Definition next_record (p : Policy) (now : Z) (o : option CounterRecord)
    : CounterRecord :=
  settle p (increment (default (zero_record now) o)).

(** Modelled from the spec: what the external verification capability can
    do with a proof token (sections 5 and 7: it answers, errors or times
    out). *)
Inductive OracleReply := Accepts | Refuses | Errors | TimesOut.

(** Modelled from the spec: the result of [verify], section 4.4. *)
Inductive Verification := Verified | Rejected.

(** Modelled from the spec: [verify(proofToken)] of section 4.4; an
    oracle that errors or times out counts as a rejection (sections 5
    and 7). *)
Definition verify (reply : OracleReply) : Verification :=
  match reply with
  | Accepts => Verified
  | Refuses | Errors | TimesOut => Rejected
  end.

(** Modelled from the spec: the error taxonomy of section 7. *)
Inductive GateError :=
| ChallengeRequired (siteKey : string)
| VerificationFailed
| HardDenied.

(** Modelled from the spec: what the gate hands to the route, "proceed"
    or a terminal response of its own, with the store it leaves. *)
Inductive Decision :=
| Proceed (st : RateLimitStore)
| Refused (e : GateError) (st : RateLimitStore).

Definition decision_store (d : Decision) : RateLimitStore :=
  match d with
  | Proceed st => st
  | Refused _ st => st
  end.

Section WithPolicy.

Variable policy : Policy.

(** Modelled from the spec: the "black-box boolean oracle keyed by the
    proof token and the caller's network address". *)
Variable oracle : Js.value -> option string -> OracleReply.

(** Modelled from the spec: steps 1-3 of the pipeline of section 4.5. *)
Definition count_and_evaluate (now : Z) (req : Request) (st : RateLimitStore)
    : Verdict * RateLimitStore :=
  let '(t, k) := create_identity req in
  let '(r, st1) := observe now t k st in
  evaluate_and_mark policy t k r st1.

(** Modelled from the spec: step 5 of the pipeline, the Challenge
    Coordinator of section 4.4. *)
Definition challenge (req : Request) (st : RateLimitStore) : Decision :=
  if Js.truthy (captchaResponse req) then
    match verify (oracle (captchaResponse req) (clientIp req)) with
    | Verified =>
        let '(t, k) := create_identity req in Proceed (reset t k st)
    | Rejected => Refused VerificationFailed st
    end
  else Refused (ChallengeRequired (captchaSiteKey policy)) st.

(** Modelled from the spec: the Gate Middleware of section 4.5. *)
Definition pipeline (now : Z) (req : Request) (st : RateLimitStore) : Decision :=
  match count_and_evaluate now req st with
  | (Allow, st') => Proceed st'
  | (Challenge, st') => challenge req st'
  | (Deny, st') => Refused HardDenied st'
  end.

(** Modelled from the spec: a run of requests through the gate, oldest
    first, each with the time it arrives. *)
Fixpoint pipeline_all (reqs : list (Z * Request)) (st : RateLimitStore)
    : RateLimitStore :=
  match reqs with
  | [] => st
  | (now, req) :: reqs' => pipeline_all reqs' (decision_store (pipeline now req st))
  end.

(** Modelled from the spec: observe-plus-evaluate cycles of one identity,
    one per clock reading; the verdicts in order and the store reached. *)
Fixpoint cycles (clock : list Z) (req : Request) (st : RateLimitStore)
    : list Verdict * RateLimitStore :=
  match clock with
  | [] => ([], st)
  | now :: clock' =>
      let '(v, st') := count_and_evaluate now req st in
      let '(vs, st'') := cycles clock' req st' in
      (v :: vs, st'')
  end.

End WithPolicy.

End Gate.

(** ** The specification's wording, for comparison *)

(** The name the specification gives to an entry: ["user:<id>"] for an
    entry of [userLimits], ["ip:<address>"] for an entry of [limits]. *)
Definition identity_key (i : Table * string) : string :=
  match i.1 with
  | UserLimits => "user:" ++ i.2
  | Limits => "ip:" ++ i.2
  end.

(** Section 4.1 read literally: the principal when there is one, otherwise
    the forwarded-for header value "if present", otherwise the raw
    connection address. *)
Definition spec_resolve (req : Request) : string :=
  match user req with
  | Some u => "user:" ++ user_id u
  | None =>
      "ip:" ++ match xForwardedFor req with
               | Some h => h
               | None => Js.property_key (remoteAddress req)
               end
  end.

(** Section 3 read literally: a run of a handler reaches the records only
    through the Store's operations, that is, it performs no assignment of
    its own on an entry. *)
Definition store_mediated {Db : Type} (o : Outcome Db) : Prop :=
  writes o = [].



(** ** Sample data *)

Module Sample.

(** A database that is a list of rows, newest first, and never rejects. *)
Definition insert (d : list TempEmail) (row : TempEmail)
    : option (list TempEmail) :=
  Some (row :: d).

Definition select (d : list TempEmail) (i : string)
    : option (list TempEmail) :=
  Some (filter (fun row => String.eqb (te_id row) i = true) d).

Definition two_months (t : Z) : Z := (t + 5270400000)%Z.
Definition two_days (t : Z) : Z := (t + 172800000)%Z.

Definition env : Env := mkEnv "7c0e-01" 1700000000000.

Definition alice : User := mkUser "u1".

(** An anonymous caller that sends a proof token. *)
Definition anon_with_token : Request :=
  mkRequest None (Some "203.0.113.7") (Some "10.0.0.1")
    (Js.Str "box@mail.test") (Js.Num 3) (Js.Str "03AGdBq2").

(** The same caller without a token. *)
Definition anon_no_token : Request :=
  mkRequest None (Some "203.0.113.7") (Some "10.0.0.1")
    (Js.Str "box@mail.test") (Js.Num 3) Js.Undefined.

(** A caller behind a proxy that sends an empty forwarded-for header. *)
Definition anon_empty_header : Request :=
  mkRequest None (Some "") (Some "10.0.0.1")
    (Js.Str "box@mail.test") (Js.Num 3) Js.Undefined.

(** A caller never seen before. *)
Definition stranger_with_token : Request :=
  mkRequest None None (Some "198.51.100.4")
    (Js.Str "new@mail.test") (Js.Num 3) (Js.Str "03AGdBq2").

(** A caller whose forwarded-for header names a property that every plain
    object inherits. *)
Definition prototype_caller : Request :=
  mkRequest None (Some "constructor") (Some "10.0.0.1")
    (Js.Str "new@mail.test") (Js.Num 3) (Js.Str "03AGdBq2").

Definition alice_with_token : Request :=
  mkRequest (Some alice) (Some "203.0.113.7") (Some "10.0.0.1")
    (Js.Str "box@mail.test") (Js.Num 3) (Js.Str "03AGdBq2").

Definition gated_record : CounterRecord := mkRecord 6 1699999000000 true.

Definition gated_store : RateLimitStore :=
  mkStore {[ "203.0.113.7" := gated_record ]} {[ "u1" := gated_record ]}.

Definition empty_store : RateLimitStore := mkStore ∅ ∅.

Definition challenged : Locals := mkLocals (Js.Bool true) (Js.Str "6Lc-site").


Definition policy5 : Gate.Policy := Gate.mkPolicy 5 "6Lc-site".

(** An oracle that is down. *)
Definition oracle_down (_ : Js.value) (_ : option string) : Gate.OracleReply :=
  Gate.TimesOut.

(** An authentication layer that accepts everybody as [alice], and a
    gate that lets everything through. *)
Definition auth_alice (_ : Request) : Response + option User :=
  inr (Some alice).

(** An authentication layer that finds no principal and hands the request
    on. *)
Definition auth_nobody (_ : Request) : Response + option User := inr None.

Definition open_gate (_ : Request) (st : RateLimitStore) : Middleware :=
  Next (mkLocals Js.Undefined Js.Undefined) st.


End Sample.

(** ** Further vocabulary for the creation handlers *)

(** What a route may do to one record at most: keep its window, not raise
    its count, not set its flag. *)
Definition relaxed (r r' : CounterRecord) : Prop :=
  windowStart r' = windowStart r
  ∧ (count r' ≤ count r)%nat
  ∧ (captchaRequired r' = true → captchaRequired r = true).


(** ** The listing routes: pagination and the admin passphrase *)

(** A JavaScript number as the listing routes meet it: what [parseInt]
    returns, an integer or [NaN].  Integers are taken exact, as doubles
    are below 2^53. *)
Inductive Number := NaN | Int (z : Z).

(** [n || d] for a number [n] and a non-zero literal [d]: [NaN] and [0]
    are falsy. *)
Definition number_or (n : Number) (d : Z) : Z :=
  match n with
  | Int z => if (z =? 0)%Z then d else z
  | NaN => d
  end.

(** [Math.ceil(a / b)] for integers [a] and [b]; [b] is never [0] where
    the routes divide. *)
Definition ceil_div (a b : Z) : Z := (- ((- a) / b))%Z.

(** [(page - 1) * limit], computed here in the integers.  The routes
    compute it in doubles, which agrees with the integers as long as the
    operands and the result are safe integers (see [safe] below). *)
Definition offset_of (page limit : Z) : Z := ((page - 1) * limit)%Z.

(** [Number.isSafeInteger]: the integers strictly between [-2^53] and
    [2^53].  On safe operands with a safe result, subtraction and
    multiplication of doubles are exact, and so is [Math.ceil(a / b)];
    outside, doubles round and the integer arithmetic of this model no
    longer describes the routes. *)
Definition safe (z : Z) : Prop := (- 2 ^ 53 < z < 2 ^ 53)%Z.

(** The [metadata] object of a listing reply. *)
Record Metadata := mkMetadata {
  total : Z;
  page : Z;
  limit : Z;
  pages : Z
}.

Definition metadata_of (totalCount page limit : Z) : Metadata :=
  mkMetadata totalCount page limit (ceil_div totalCount limit).

(** A value bound to a [?] of a query. *)
Inductive Param :=
| PStr (s : string)
| PNum (n : Number).

(** The number of [?] placeholders of a query text. *)
Fixpoint placeholders (q : string) : nat :=
  match q with
  | EmptyString => 0
  | String c q' =>
      ((if Ascii.eqb c (Ascii.ascii_of_nat 63) then 1 else 0) + placeholders q')%nat
  end.

(** What a listing route needs of a request. *)
Record ListRequest := mkListRequest {
  lr_user : option User;              (* req.user *)
  lr_id : string;                     (* req.params.id *)
  lr_page : option string;            (* req.query.page *)
  lr_limit : option string;           (* req.query.limit *)
  lr_search : option string;          (* req.query.search *)
  lr_adminAccess : option string      (* req.headers['admin-access'] *)
}.

Inductive ListReply (Row : Type) :=
| Listing (data : list Row) (metadata : Metadata)
| Failure (code : nat) (error : string).
Arguments Listing {Row}.
Arguments Failure {Row}.

(** [adminAccess !== process.env.ADMIN_PASSPHRASE] is false: both sides are
    a string or [undefined]. *)
Definition admin_authorized (adminAccess passphrase : option string) : bool :=
  bool_decide (adminAccess = passphrase).

(** [req.query.search || ''] *)
Definition search_of (q : option string) : string :=
  match q with
  | Some s => s
  | None => ""
  end.

(** The two queries of [GET /]: text and bound values, as lines 163-186 build
    them. *)
Definition emails_count_query (userId : string) (search : string)
    : string * list Param :=
  if negb (String.eqb search "") then
    ("SELECT COUNT(*) as total FROM temp_emails WHERE user_id = ?"
       ++ " AND email LIKE ?",
     [PStr userId; PStr ("%" ++ search ++ "%")])
  else
    ("SELECT COUNT(*) as total FROM temp_emails WHERE user_id = ?",
     [PStr userId]).

Definition emails_data_query (userId : string) (search : string)
    (limit offset : Z) : string * list Param :=
  if negb (String.eqb search "") then
    (("SELECT * FROM temp_emails WHERE user_id = ?" ++ " AND email LIKE ?")
       ++ " ORDER BY created_at DESC LIMIT ? OFFSET ?",
     ([PStr userId; PStr ("%" ++ search ++ "%")]
        ++ [PNum (Int limit); PNum (Int offset)])%list)
  else
    ("SELECT * FROM temp_emails WHERE user_id = ?"
       ++ " ORDER BY created_at DESC LIMIT ? OFFSET ?",
     ([PStr userId] ++ [PNum (Int limit); PNum (Int offset)])%list).

(** The queries of [GET /:id/received], lines 38-55. *)
Definition received_count_query (id userId : string) : string * list Param :=
  ("
      SELECT COUNT(*) as total
      FROM received_emails re
      JOIN temp_emails te ON re.temp_email_id = te.id
      WHERE te.id = ? AND te.user_id = ?
    ",
   [PStr id; PStr userId]).

Definition received_data_query (id userId : string) (limit offset : Z)
    : string * list Param :=
  ("
      SELECT re.*, te.email as temp_email
      FROM received_emails re
      JOIN temp_emails te ON re.temp_email_id = te.id
      WHERE te.id = ? AND te.user_id = ?
      ORDER BY re.received_at DESC
      LIMIT ? OFFSET ?
    ",
   [PStr id; PStr userId; PNum (Int limit); PNum (Int offset)]).

(** The queries of [GET /admin/all], lines 351-365. *)
Definition admin_count_query : string * list Param :=
  ("
      SELECT COUNT(*) as total
      FROM received_emails
    ",
   []).

Definition admin_data_query (limit offset : Z) : string * list Param :=
  ("
      SELECT re.*, te.email as temp_email
      FROM received_emails re
      JOIN temp_emails te ON re.temp_email_id = te.id
      ORDER BY re.received_at DESC
      LIMIT ? OFFSET ?
    ",
   [PNum (Int limit); PNum (Int offset)]).

Section Listings.

Context {Row : Type}.

(** [parseInt], the built-in, taken as a parameter: it maps a query-string
    value, or [undefined], to an integer or [NaN]. *)
Variable parseInt : option string -> Number.

(** The connection pool of [../db/init.js], taken as a parameter and split
    by the shape of the result: a counting query yields the [total] of its
    single row, any other query yields rows; a rejected
    query is [None]. *)
Variable query_total : string * list Param -> option Z.
Variable query_rows : string * list Param -> option (list Row).

(** [process.env.ADMIN_PASSPHRASE] *)
Variable ADMIN_PASSPHRASE : option string.

(** The two awaited queries and the reply, shared by the three routes; a
    rejected query lands in the route's [catch]. *)
Definition count_then_list (count_q : string * list Param)
    (data_q : string * list Param) (page limit : Z) (code : nat)
    (error : string) : ListReply Row :=
  match query_total count_q with
  | None => Failure code error
  | Some totalCount =>
      match query_rows data_q with
      | None => Failure code error
      | Some rows => Listing rows (metadata_of totalCount page limit)
      end
  end.

(** [router.get('/', authenticateToken, ...)], lines 154-204. *)
Definition get_emails (req : ListRequest) : ListReply Row :=
  let page := number_or (parseInt (lr_page req)) 1 in
  let limit := number_or (parseInt (lr_limit req)) 10 in
  let offset := offset_of page limit in
  let search := search_of (lr_search req) in
  match lr_user req with
  | None => Failure 400 "Failed to fetch emails"
  | Some u =>
      count_then_list (emails_count_query (user_id u) search)
        (emails_data_query (user_id u) search limit offset)
        page limit 400 "Failed to fetch emails"
  end.

(** [router.get('/:id/received', authenticateToken, ...)], lines 30-71. *)
Definition get_received (req : ListRequest) : ListReply Row :=
  let page := number_or (parseInt (lr_page req)) 1 in
  let limit := number_or (parseInt (lr_limit req)) 10 in
  let offset := offset_of page limit in
  match lr_user req with
  | None => Failure 400 "Failed to fetch received emails"
  | Some u =>
      count_then_list (received_count_query (lr_id req) (user_id u))
        (received_data_query (lr_id req) (user_id u) limit offset)
        page limit 400 "Failed to fetch received emails"
  end.

(** [router.get('/admin/all', ...)], lines 337-380. *)
Definition get_admin_all (req : ListRequest) : ListReply Row :=
  if negb (admin_authorized (lr_adminAccess req) ADMIN_PASSPHRASE)
  then Failure 403 "Unauthorized"
  else
    let page := number_or (parseInt (lr_page req)) 1 in
    let limit := number_or (parseInt (lr_limit req)) 100 in
    let offset := offset_of page limit in
    count_then_list admin_count_query (admin_data_query limit offset)
      page limit 500 "Failed to fetch emails".

End Listings.


(** The replies on which the integer arithmetic of this model is the
    arithmetic of the route: every number of the reply, and the offset
    sent to the database, is a safe integer. *)
Definition safe_window (md : Metadata) : Prop :=
  safe (total md) ∧ safe (page md) ∧ safe (limit md)
  ∧ safe (offset_of (page md) (limit md)).

(** What a client paging through a listing relies on: page and limit are
    usable as divisors and multipliers, and for a positive limit [pages]
    is the least number of pages that holds [total] rows. *)
Definition sound_metadata (md : Metadata) : Prop :=
  page md ≠ 0%Z ∧ limit md ≠ 0%Z
  ∧ ((0 < limit md)%Z →
     ((pages md - 1) * limit md < total md ≤ pages md * limit md)%Z).


(** ** The bulk mailer: [POST /admin/bulk-send] *)

Module Json.

(** A parsed JSON value; [undefined] is the [None] of [option t]. *)
#[local] Unset Elimination Schemes.
Inductive t :=
| Null
| Bool (b : bool)
| Num (z : Z)
| Str (s : string)
| Arr (items : list t)
| Obj (fields : list (string * t)).
#[local] Set Elimination Schemes.

(** [ToBoolean] *)
Definition truthy (v : option t) : bool :=
  match v with
  | None | Some Null => false
  | Some (Bool b) => b
  | Some (Num z) => negb (z =? 0)%Z
  | Some (Str s) => negb (String.eqb s "")
  | Some (Arr _) | Some (Obj _) => true
  end.

(** The value of an own property; of duplicate keys [JSON.parse] keeps the
    last. *)
Fixpoint field (name : string) (fields : list (string * t)) : option t :=
  match fields with
  | [] => None
  | (k, v) :: rest =>
      match field name rest with
      | Some v' => Some v'
      | None => if String.eqb k name then Some v else None
      end
  end.

(** [v?.name] for the property names the mailer reads ([length],
    [subject], [body]): [undefined] and [null] short-circuit, arrays and
    strings have a [length] and none of the others, objects have what
    they were parsed with. *)
Definition get (v : option t) (name : string) : option t :=
  match v with
  | None | Some Null | Some (Bool _) | Some (Num _) => None
  | Some (Str s) =>
      if String.eqb name "length" then Some (Num (Z.of_nat (String.length s)))
      else None
  | Some (Arr items) =>
      if String.eqb name "length" then Some (Num (Z.of_nat (length items)))
      else None
  | Some (Obj fields) => field name fields
  end.

End Json.

Module BulkSend.

(** [const { userIds, email, smtp } = req.body] *)
Record Body := mkBody {
  userIds : option Json.t;
  email : option Json.t;
  smtp : option Json.t
}.

(** [!userIds?.length || !email?.subject || !email?.body || !smtp] *)
Definition missing_parameters (b : Body) : bool :=
  negb (Json.truthy (Json.get (userIds b) "length"))
  || negb (Json.truthy (Json.get (email b) "subject"))
  || negb (Json.truthy (Json.get (email b) "body"))
  || negb (Json.truthy (smtp b)).

(** One entry of [Promise.allSettled]. *)
Inductive Settled :=
| Fulfilled (info : string)
| Rejected (reason : string).

Definition is_fulfilled (r : Settled) : bool :=
  match r with
  | Fulfilled _ => true
  | Rejected _ => false
  end.

Definition is_rejected (r : Settled) : bool := negb (is_fulfilled r).

(** One entry of [details] in the reply. *)
Record Detail := mkDetail {
  d_email : string;
  d_fulfilled : bool;            (* status: 'fulfilled' or 'rejected' *)
  d_error : option string        (* the reason, or null *)
}.

Definition detail_of (to : string) (r : Settled) : Detail :=
  match r with
  | Fulfilled _ => mkDetail to true None
  | Rejected reason => mkDetail to false (Some reason)
  end.

Inductive Reply :=
| Sent (message : string) (succeeded failed : nat) (details : list Detail)
| Failed (code : nat) (error : string) (details : option string).

(** The reply, and the addresses [sendMail] was called for, in order. *)
Record Outcome := mkOutcome {
  reply : Reply;
  attempted : list string
}.

Section Handler.

(** [process.env.ADMIN_PASSPHRASE] *)
Variable ADMIN_PASSPHRASE : option string.

(** [nodemailer], taken as a parameter: [transporter.verify()] for the
    transport made of [smtp] resolves ([None]) or throws an error with a
    message; the [index]-th [sendMail] to an address settles one way or
    the other. *)
Variable verify : option Json.t -> option string.
Variable sendMail : option Json.t -> option Json.t -> nat -> string -> Settled.

(** The pool, taken as a parameter: the addresses of the users whose id is
    among [userIds], or the message of the error the query rejects with. *)
Variable select_emails : option Json.t -> string + list string.

(** [router.post('/admin/bulk-send', ...)], lines 500-591. *)
Definition post_bulk_send (adminAccess : option string) (b : Body) : Outcome :=
  if negb (admin_authorized adminAccess ADMIN_PASSPHRASE)
  then mkOutcome (Failed 403 "Unauthorized" None) []
  else if missing_parameters b
  then mkOutcome (Failed 400 "Missing required parameters" None) []
  else
    match verify (smtp b) with
    | Some message =>
        mkOutcome (Failed 500 "Failed to send emails" (Some message)) []
    | None =>
        match select_emails (userIds b) with
        | inl message =>
            mkOutcome (Failed 500 "Failed to send emails" (Some message)) []
        | inr users =>
            let results := imap (sendMail (smtp b) (email b)) users in
            let succeeded := length (filter (λ r, is_fulfilled r = true) results) in
            let failed := length (filter (λ r, is_rejected r = true) results) in
            mkOutcome
              (Sent ("Sent " ++ pretty succeeded ++ " emails successfully, "
                       ++ pretty failed ++ " failed")
                 succeeded failed
                 (zip_with detail_of users results))
              users
        end
    end.

End Handler.

End BulkSend.

(** ** The admin panel (client side) *)

Module Panel.

(** [smtpSettings] *)
Record Smtp := mkSmtp {
  host : string;
  port : Z;
  username : string;
  password : string;
  from_email : string;
  from_name : string
}.

(** The part of the component state the handlers below read and write;
    [users] holds the ids of the rows shown, in order. *)
Record State := mkState {
  users : list string;
  selectedUsers : gset string;
  subject : string;
  body : string;
  smtpSettings : Smtp;
  error : string
}.

Definition with_selected (s : gset string) (st : State) : State :=
  mkState (users st) s (subject st) (body st) (smtpSettings st) (error st).

(** [handleSelectAll], lines 171-177. *)
Definition handleSelectAll (st : State) : State :=
  if (size (selectedUsers st) =? length (users st))%nat
  then with_selected ∅ st
  else with_selected (list_to_set (users st)) st.

(** The [onChange] of a row's checkbox, lines 482-490. *)
Definition toggle (id : string) (st : State) : State :=
  if bool_decide (id ∈ selectedUsers st)
  then with_selected (selectedUsers st ∖ {[id]}) st
  else with_selected (selectedUsers st ∪ {[id]}) st.

(** The request body [handleSendEmails] posts; [Array.from] of a set is
    rendered in the set's element order. *)
Definition payload (st : State) : BulkSend.Body :=
  BulkSend.mkBody
    (Some (Json.Arr (Json.Str <$> elements (selectedUsers st))))
    (Some (Json.Obj [("subject", Json.Str (subject st));
                     ("body", Json.Str (body st))]))
    (Some (Json.Obj [("host", Json.Str (host (smtpSettings st)));
                     ("port", Json.Num (port (smtpSettings st)));
                     ("username", Json.Str (username (smtpSettings st)));
                     ("password", Json.Str (password (smtpSettings st)));
                     ("from_email", Json.Str (from_email (smtpSettings st)));
                     ("from_name", Json.Str (from_name (smtpSettings st)))])).

Inductive Submit :=
| Complain (error : string)
| Post (b : BulkSend.Body).

(** [handleSendEmails] up to the request, lines 126-158. *)
Definition handleSendEmails (st : State) : Submit :=
  if (size (selectedUsers st) =? 0)%nat
  then Complain "Please select at least one user"
  else if String.eqb (subject st) "" || String.eqb (body st) ""
  then Complain "Please provide both subject and body for the email"
  else if String.eqb (host (smtpSettings st)) ""
          || String.eqb (username (smtpSettings st)) ""
          || String.eqb (password (smtpSettings st)) ""
  then Complain "Please provide all SMTP settings"
  else Post (payload st).

End Panel.


(** ** The sent-mail dialog (client side) *)

Module SentMail.

Record SentEmail := mkSentEmail {
  id : string;
  to : string;
  subject : string;
  sent_at : string;
  delivered : bool                  (* status: 'delivered' or 'failed' *)
}.

(** [s.includes(sub)] *)
Fixpoint includes (s sub : string) : bool :=
  String.prefix sub s
  || match s with
     | EmptyString => false
     | String _ s' => includes s' sub
     end.

Record State := mkState {
  sentEmails : list SentEmail;
  searchTerm : string;
  error : string
}.

Section Dialog.

(** [String.prototype.toLowerCase], taken as a parameter. *)
Variable toLowerCase : string -> string.

(** The predicate of [filteredEmails], lines 60-63. *)
Definition found (term : string) (e : SentEmail) : bool :=
  includes (toLowerCase (to e)) (toLowerCase term)
  || includes (toLowerCase (subject e)) (toLowerCase term).

Definition filteredEmails (st : State) : list SentEmail :=
  filter (λ e, found (searchTerm st) e = true) (sentEmails st).

(** [handleDelete], lines 47-57: [answer] is what [axios.delete] did, [None]
    for a resolved request and otherwise the rejection's
    [error.response?.data?.error], itself a string or [undefined]. *)
Definition handleDelete (answer : option (option string)) (target : string)
    (st : State) : State :=
  match answer with
  | None =>
      mkState (filter (λ e, id e ≠ target) (sentEmails st)) (searchTerm st)
        (error st)
  | Some message =>
      mkState (sentEmails st) (searchTerm st)
        (match message with
         | Some m => if String.eqb m "" then "Failed to delete email" else m
         | None => "Failed to delete email"
         end)
  end.

End Dialog.

End SentMail.

(** ** The mailbox routes that delete and fetch single rows *)

Module Mailbox.

(** A row of [received_emails]: the two columns the routes select by, and
    the rest of the row. *)
Record Received := mkReceived {
  re_id : string;
  re_temp_email_id : string;
  re_content : string
}.

Record Tables := mkTables {
  temp_emails : list TempEmail;
  received_emails : list Received
}.

Inductive Reply :=
| Done (message : string) (count : option nat)
| Found (row : TempEmail)
| Error (code : nat) (error : string).

(** [req.body.emailIds]: an array of ids, or anything else. *)
Inductive EmailIds :=
| NotAnArray
| IdArray (ids : list string).

Section Routes.

(** How the database compares a string column with a bound string (the
    column's collation), taken as a parameter. *)
Variable sql_eq : string -> string -> bool.

(** [WHERE id = ? AND user_id = ?] on [temp_emails]; a NULL [user_id]
    matches nothing. *)
Definition owned_by (id userId : string) (row : TempEmail) : bool :=
  sql_eq (te_id row) id
  && match te_user_id row with
     | Some owner => sql_eq owner userId
     | None => false
     end.

(** [WHERE id IN (?) AND temp_email_id = ?] on [received_emails]. *)
Definition listed_in (ids : list string) (tempEmailId : string)
    (row : Received) : bool :=
  existsb (sql_eq (re_id row)) ids && sql_eq (re_temp_email_id row) tempEmailId.

(** A DELETE: the rows kept, and [affectedRows]. *)
Definition delete_where {A : Type} (cond : A -> bool) (rows : list A)
    : list A * nat :=
  (filter (λ r, cond r = false) rows, length (filter (λ r, cond r = true) rows)).

(** [router.get('/:id', authenticateToken, ...)], lines 12-27.  [rejects]
    tells whether the query is rejected. *)
Definition get_email (rejects : bool) (user : option User) (id : string)
    (db : Tables) : Reply :=
  match user with
  | None => Error 400 "Failed to fetch email"
  | Some u =>
      if rejects then Error 400 "Failed to fetch email"
      else
        match filter (λ r, owned_by id (user_id u) r = true) (temp_emails db) with
        | [] => Error 404 "Email not found"
        | row :: _ => Found row
        end
  end.

(** [router.delete('/delete/:id', authenticateToken, ...)], lines 119-151,
    once the connection is obtained.  [rejects n] tells whether the [n]-th
    awaited call of the transaction (begin, the two DELETEs, commit) is
    rejected; a rollback restores the tables the transaction began with. *)
Definition delete_email (rejects : nat -> bool) (user : option User)
    (id : string) (db : Tables) : Reply * Tables :=
  let failed := (Error 400 "Failed to delete email", db) in
  if rejects 0 then failed
  else if rejects 1 then failed
  else
    let '(received, _) :=
      delete_where (λ r, sql_eq (re_temp_email_id r) id) (received_emails db) in
    match user with
    | None => failed
    | Some u =>
        if rejects 2 then failed
        else
          let '(temp, affectedRows) :=
            delete_where (owned_by id (user_id u)) (temp_emails db) in
          if (affectedRows =? 0)%nat then (Error 404 "Email not found", db)
          else if rejects 3 then failed
          else (Done "Email deleted successfully" None,
                mkTables temp received)
    end.

(** [router.post('/:tempEmailId/received/bulk/delete', authenticateToken,
    ...)], lines 237-269; no transaction here, [rejects n] is about the
    [n]-th query. *)
Definition bulk_delete_received (rejects : nat -> bool) (user : option User)
    (tempEmailId : string) (emailIds : EmailIds) (db : Tables)
    : Reply * Tables :=
  match emailIds with
  | NotAnArray | IdArray [] => (Error 400 "Invalid email IDs", db)
  | IdArray ids =>
      let failed := (Error 400 "Failed to delete received emails", db) in
      match user with
      | None => failed
      | Some u =>
          if rejects 0 then failed
          else
            match filter (λ r, owned_by tempEmailId (user_id u) r = true)
                    (temp_emails db) with
            | [] => (Error 404 "Temporary email not found", db)
            | _ :: _ =>
                if rejects 1 then failed
                else
                  let '(received, affectedRows) :=
                    delete_where (listed_in ids tempEmailId)
                      (received_emails db) in
                  (Done "Emails deleted successfully" (Some affectedRows),
                   mkTables (temp_emails db) received)
            end
      end
  end.

(** [router.delete('/:tempEmailId/received/:emailId', authenticateToken,
    ...)], lines 207-234. *)
Definition delete_received (rejects : nat -> bool) (user : option User)
    (tempEmailId emailId : string) (db : Tables) : Reply * Tables :=
  let failed := (Error 400 "Failed to delete received email", db) in
  match user with
  | None => failed
  | Some u =>
      if rejects 0 then failed
      else
        match filter (λ r, owned_by tempEmailId (user_id u) r = true)
                (temp_emails db) with
        | [] => (Error 404 "Temporary email not found", db)
        | _ :: _ =>
            if rejects 1 then failed
            else
              let '(received, affectedRows) :=
                delete_where
                  (λ r, sql_eq (re_id r) emailId
                        && sql_eq (re_temp_email_id r) tempEmailId)
                  (received_emails db) in
              if (affectedRows =? 0)%nat
              then (Error 404 "Received email not found", db)
              else (Done "Email deleted successfully" None,
                    mkTables (temp_emails db) received)
        end
  end.

End Routes.

End Mailbox.


(** ** The user listing of the admin panel: [GET /admin/users] *)

Module Users.

(** [req.query], each value a string or absent. *)
Record Query := mkQuery {
  search : option string;
  sortBy : option string;
  sortOrder : option string;
  page : option string;
  limit : option string;
  emailCountMin : option string;
  emailCountMax : option string;
  dateStart : option string;
  dateEnd : option string;
  isActive : option string;
  hasCustomDomain : option string
}.

(** [if (v)] for a query value. *)
Definition given (v : option string) : bool :=
  match v with
  | Some s => negb (String.eqb s "")
  | None => false
  end.

(** A query value spliced into a template literal once it is known to be
    a string. *)
Definition text (v : option string) : string :=
  match v with
  | Some s => s
  | None => ""
  end.

(** [v === literal] *)
Definition equals (literal : string) (v : option string) : bool :=
  match v with
  | Some s => String.eqb s literal
  | None => false
  end.

(** The template literal of lines 404-423. *)
Definition base : string := "
      SELECT 
        u.id,
        u.email,
        u.created_at,
        u.last_login,
        u.last_activity_at,
        COUNT(DISTINCT te.id) as email_count,
        COUNT(DISTINCT cd.id) as custom_domain_count,
        (
          SELECT COUNT(*)
          FROM received_emails re
          JOIN temp_emails te2 ON re.temp_email_id = te2.id
          WHERE te2.user_id = u.id
        ) as received_email_count
      FROM users u
      LEFT JOIN temp_emails te ON u.id = te.user_id
      LEFT JOIN user_domains cd ON u.id = cd.user_id
      WHERE 1=1
    ".

(** [query += fragment; queryParams.push(...values)] under a condition. *)
Definition clause (cond : bool) (fragment : string) (values : list Param)
    (q : string * list Param) : string * list Param :=
  if cond then (q.1 ++ fragment, (q.2 ++ values)%list) else q.

(** [a - 1] and [a * b] on numbers; [NaN] is contagious. *)
Definition minus_one (a : Number) : Number :=
  match a with
  | Int z => Int (z - 1)
  | NaN => NaN
  end.

Definition times (a b : Number) : Number :=
  match a, b with
  | Int x, Int y => Int (x * y)
  | _, _ => NaN
  end.

(** [String.prototype.replace] with the pattern [/SELECT .* FROM/]:
    [greedy s] is what is left of [s] after the longest run of characters
    other than line terminators that is followed by [" FROM"], and after
    that [" FROM"]; the dot matches neither LF, CR, U+2028 nor U+2029. *)
Definition line_end (s : string) : bool :=
  String.prefix (String (Ascii.ascii_of_nat 10) "") s
  || String.prefix (String (Ascii.ascii_of_nat 13) "") s
  || String.prefix
       (String (Ascii.ascii_of_nat 226)
          (String (Ascii.ascii_of_nat 128)
             (String (Ascii.ascii_of_nat 168) ""))) s
  || String.prefix
       (String (Ascii.ascii_of_nat 226)
          (String (Ascii.ascii_of_nat 128)
             (String (Ascii.ascii_of_nat 169) ""))) s.

Fixpoint skip (n : nat) (s : string) : string :=
  match n, s with
  | S n', String _ s' => skip n' s'
  | _, _ => s
  end.

Fixpoint greedy (s : string) : option string :=
  match s with
  | EmptyString => None
  | String _ s' =>
      match (if line_end s then None else greedy s') with
      | Some rest => Some rest
      | None => if String.prefix " FROM" s then Some (skip 5 s) else None
      end
  end.

(** The text with its leftmost match replaced, if there is a match. *)
Fixpoint replace_select_from (replacement : string) (s : string)
    : option string :=
  match s with
  | EmptyString => None
  | String c s' =>
      match (if String.prefix "SELECT " s then greedy (skip 7 s) else None) with
      | Some rest => Some (replacement ++ rest)
      | None => String c <$> replace_select_from replacement s'
      end
  end.

(** [query.replace(/SELECT .* FROM/, 'SELECT COUNT(DISTINCT u.id) as total
    FROM')], line 477. *)
Definition count_statement (query : string) : string :=
  match replace_select_from "SELECT COUNT(DISTINCT u.id) as total FROM" query with
  | Some replaced => replaced
  | None => query
  end.

(** The [metadata] of the reply as JSON renders it: [total] is a number or
    left out, [pages] is [null] when it is not a finite number. *)
Record Metadata := mkMetadata {
  total : option Z;
  meta_page : Number;
  meta_limit : Number;
  pages : option Z
}.


Inductive Reply (Row : Type) :=
| Page (data : list Row) (metadata : Metadata)
| Failure (code : nat) (error : string).
Arguments Page {Row}.
Arguments Failure {Row}.

Section Route.

Context {Row : Type}.

(** The built-ins [parseInt] and [String.prototype.toUpperCase], taken as
    parameters. *)
Variable parseInt : option string -> Number.
Variable toUpperCase : string -> string.

(** The pool, taken as a parameter, and the [total] column of a row, if
    the row has one. *)
Variable query_rows : string * list Param -> option (list Row).
Variable total_of : Row -> option Z.

(** [process.env.ADMIN_PASSPHRASE] *)
Variable ADMIN_PASSPHRASE : option string.

(** [parseInt(page)] and [parseInt(limit)] with the destructuring defaults
    [page = 1] and [limit = 50]. *)
Definition page_number (q : Query) : Number :=
  match page q with
  | Some s => parseInt (Some s)
  | None => Int 1
  end.

Definition limit_number (q : Query) : Number :=
  match limit q with
  | Some s => parseInt (Some s)
  | None => Int 50
  end.

(** [sortBy = 'created_at'] and [sortOrder = 'desc'] *)
Definition sort_column (q : Query) : string :=
  match sortBy q with
  | Some s => s
  | None => "created_at"
  end.

Definition sort_direction (q : Query) : string :=
  toUpperCase (match sortOrder q with
               | Some s => s
               | None => "desc"
               end).

(** The statement and its bound values, lines 404-474. *)
Definition statement (q : Query) : string * list Param :=
  let s := (base, []) in
  let s := clause (given (search q)) " AND u.email LIKE ?"
             [PStr ("%" ++ text (search q) ++ "%")] s in
  let s := clause (given (emailCountMin q))
             " AND (SELECT COUNT(*) FROM temp_emails WHERE user_id = u.id) >= ?"
             [PNum (parseInt (emailCountMin q))] s in
  let s := clause (given (emailCountMax q))
             " AND (SELECT COUNT(*) FROM temp_emails WHERE user_id = u.id) <= ?"
             [PNum (parseInt (emailCountMax q))] s in
  let s := clause (given (dateStart q)) " AND u.created_at >= ?"
             [PStr (text (dateStart q))] s in
  let s := clause (given (dateEnd q)) " AND u.created_at <= ?"
             [PStr (text (dateEnd q))] s in
  let s :=
    if equals "true" (isActive q) then
      clause true
        " AND u.last_activity_at >= DATE_SUB(NOW(), INTERVAL 7 DAY)" [] s
    else
      clause (equals "false" (isActive q))
        " AND (u.last_activity_at IS NULL OR u.last_activity_at < DATE_SUB(NOW(), INTERVAL 7 DAY))"
        [] s in
  let s :=
    if equals "true" (hasCustomDomain q) then
      clause true
        " AND EXISTS (SELECT 1 FROM user_domains WHERE user_id = u.id)" [] s
    else
      clause (equals "false" (hasCustomDomain q))
        " AND NOT EXISTS (SELECT 1 FROM user_domains WHERE user_id = u.id)"
        [] s in
  let s := clause true " GROUP BY u.id" [] s in
  let s := clause true
             (" ORDER BY " ++ sort_column q ++ " " ++ sort_direction q) [] s in
  let offset := times (minus_one (page_number q)) (limit_number q) in
  clause true " LIMIT ? OFFSET ?" [PNum (limit_number q); PNum offset] s.


End Route.

End Users.


(** A statement that binds exactly one value per placeholder. *)
Definition balanced (s : string * list Param) : Prop :=
  placeholders s.1 = length s.2.

(** ** Basic facts about the store *)

Lemma table_set_table t m st : table t (set_table t m st) = m.
Proof. by destruct t. Qed.

Lemma table_set_table_ne t t' m st :
  t ≠ t' → table t' (set_table t m st) = table t' st.
Proof. by destruct t, t'. Qed.

Lemma set_table_table t st : set_table t (table t st) st = st.
Proof. by destruct t, st. Qed.

Lemma set_table_twice t m m' st :
  set_table t m' (set_table t m st) = set_table t m' st.
Proof. by destruct t. Qed.

Lemma alter_present (f : CounterRecord → CounterRecord) k r
    (m : gmap string CounterRecord) :
  m !! k = Some r → alter f k m = <[k := f r]> m.
Proof.
  intros Hr. apply map_eq. intros j.
  rewrite lookup_alter, lookup_insert.
  destruct (decide (k = j)) as [->|]; [by rewrite Hr | done].
Qed.

Lemma alter_absent (f : CounterRecord → CounterRecord) k
    (m : gmap string CounterRecord) :
  m !! k = None → alter f k m = m.
Proof.
  intros Hr. apply map_eq. intros j.
  rewrite lookup_alter.
  destruct (decide (k = j)) as [->|]; [by rewrite Hr | done].
Qed.

Lemma reset_present t k r st :
  table t st !! k = Some r →
  Gate.reset t k st
  = set_table t (<[k := mkRecord 0 (windowStart r) false]> (table t st)) st.
Proof. intros Hr. unfold Gate.reset. by rewrite (alter_present _ _ r). Qed.

Lemma reset_absent t k st : table t st !! k = None → Gate.reset t k st = st.
Proof.
  intros Hr. unfold Gate.reset. rewrite alter_absent by done.
  apply set_table_table.
Qed.

Lemma lookup_reset t k st :
  table t (Gate.reset t k st) !! k
  = (λ r, mkRecord 0 (windowStart r) false) <$> table t st !! k.
Proof.
  unfold Gate.reset. rewrite table_set_table, lookup_alter.
  by destruct (decide (k = k)).
Qed.

(** The two assignments of a reset block, run on an entry that exists. *)
Lemma run_reset_writes t k r st :
  table t st !! k = Some r →
  run_writes (reset_writes t k) st = (Gate.reset t k st, false).
Proof.
  intros Hr. rewrite (reset_present _ _ r) by done.
  unfold reset_writes, run_writes, write. simpl.
  rewrite Hr, table_set_table, lookup_insert_eq. simpl.
  by rewrite set_table_twice, insert_insert_eq.
Qed.

(** The guarded block never throws, and what it does to the store is what
    the specification calls [reset]. *)
Lemma run_guarded_reset t k st :
  run_writes (guarded_reset t k st) st = (Gate.reset t k st, false).
Proof.
  unfold guarded_reset, has_entry.
  destruct (table t st !! k) as [r|] eqn:Hr.
  - by apply (run_reset_writes _ _ r).
  - rewrite reset_absent by done.
    destruct (Js.inherited k) eqn:Hk; [|done].
    unfold reset_writes, run_writes, write. cbn [write_table write_key].
    by rewrite Hr, Hk; cbn [write_table write_key]; rewrite Hr.
Qed.

Lemma run_create_writes req st :
  run_writes (create_writes req st) st
  = (if Js.truthy (captchaResponse req)
     then Gate.reset (create_identity req).1 (create_identity req).2 st
     else st, false).
Proof.
  unfold create_writes, create_identity.
  destruct (Js.truthy (captchaResponse req)); [|done].
  destruct (user req); apply run_guarded_reset.
Qed.

Lemma run_public_create_writes req st :
  run_writes (public_create_writes req st) st
  = (if Js.truthy (captchaResponse req)
     then Gate.reset Limits (Js.property_key (clientIp req)) st
     else st, false).
Proof.
  unfold public_create_writes.
  destruct (Js.truthy (captchaResponse req)); [|done].
  apply run_guarded_reset.
Qed.

Section HandlerFacts.

Context {Db : Type}.
Variable insert_temp_email : Db -> TempEmail -> option Db.
Variable select_temp_email : Db -> string -> option (list TempEmail).
Variable plus_two_months : Z -> Z.
Variable plus_48_hours : Z -> Z.

Lemma store_insert_and_reply row st d ws :
  store (insert_and_reply insert_temp_email select_temp_email row st d ws) = st.
Proof.
  unfold insert_and_reply.
  destruct (insert_temp_email d row) as [d'|]; [|done].
  by destruct (select_temp_email d' (te_id row)).
Qed.

Lemma writes_insert_and_reply row st d ws :
  writes (insert_and_reply insert_temp_email select_temp_email row st d ws) = ws.
Proof.
  unfold insert_and_reply.
  destruct (insert_temp_email d row) as [d'|]; [|done].
  by destruct (select_temp_email d' (te_id row)).
Qed.

(** Whatever the queries do, [/create] leaves the store its reset block
    produced. *)
Lemma store_post_create env req st d :
  store (post_create insert_temp_email select_temp_email plus_two_months
           env req st d)
  = (run_writes (create_writes req st) st).1.
Proof.
  unfold post_create.
  destruct (run_writes (create_writes req st) st) as [st' [|]]; [done|].
  destruct (user req); [apply store_insert_and_reply | done].
Qed.

Lemma writes_post_create env req st d :
  writes (post_create insert_temp_email select_temp_email plus_two_months
            env req st d)
  = create_writes req st.
Proof.
  unfold post_create.
  destruct (run_writes (create_writes req st) st) as [st' [|]]; [done|].
  destruct (user req); [apply writes_insert_and_reply | done].
Qed.

Lemma store_post_public_create env req locals st d :
  store (post_public_create insert_temp_email select_temp_email
           plus_48_hours env req locals st d)
  = if Js.truthy (locals_captchaRequired locals)
       && negb (Js.truthy (captchaResponse req))
    then st
    else (run_writes (public_create_writes req st) st).1.
Proof.
  unfold post_public_create.
  destruct (Js.truthy (locals_captchaRequired locals)
            && negb (Js.truthy (captchaResponse req))); [done|].
  destruct (run_writes (public_create_writes req st) st) as [st' [|]]; [done|].
  apply store_insert_and_reply.
Qed.

Lemma writes_post_public_create env req locals st d :
  writes (post_public_create insert_temp_email select_temp_email
            plus_48_hours env req locals st d)
  = if Js.truthy (locals_captchaRequired locals)
       && negb (Js.truthy (captchaResponse req))
    then []
    else public_create_writes req st.
Proof.
  unfold post_public_create.
  destruct (Js.truthy (locals_captchaRequired locals)
            && negb (Js.truthy (captchaResponse req))); [done|].
  destruct (run_writes (public_create_writes req st) st) as [st' [|]]; [done|].
  apply writes_insert_and_reply.
Qed.

End HandlerFacts.

(** ** Properties of the creation handlers *)

(** C1.  Whatever the key and whatever the record held before, once a
    request that carries a proof token has passed the verification
    middleware and reached the handler, the caller's record has [count]
    equal to 0 and [captchaRequired] equal to false.  Stated for both
    routes; the record is the one at the caller's own identity. *)
Theorem reset_clears_count_and_flag {Db : Type}
    (insert_temp_email : Db -> TempEmail -> option Db)
    (select_temp_email : Db -> string -> option (list TempEmail))
    (plus_two_months plus_48_hours : Z -> Z)
    (env : Env) (req : Request) (locals : Locals) (st : RateLimitStore)
    (d : Db) (r : CounterRecord) :
  Js.truthy (captchaResponse req) = true →
  (table (create_identity req).1 st !! (create_identity req).2 = Some r →
   ∃ r',
     table (create_identity req).1
       (store (post_create insert_temp_email select_temp_email
                 plus_two_months env req st d))
       !! (create_identity req).2 = Some r'
     ∧ count r' = 0 ∧ captchaRequired r' = false)
  ∧
  (table (public_identity req).1 st !! (public_identity req).2 = Some r →
   ∃ r',
     table (public_identity req).1
       (store (post_public_create insert_temp_email select_temp_email
                 plus_48_hours env req locals st d))
       !! (public_identity req).2 = Some r'
     ∧ count r' = 0 ∧ captchaRequired r' = false).
Proof.
  intros Htok. split; intros Hr.
  - rewrite store_post_create, run_create_writes, Htok. simpl.
    rewrite lookup_reset, Hr. simpl. eauto.
  - rewrite store_post_public_create, Htok, andb_false_r.
    rewrite run_public_create_writes, Htok.
    unfold public_identity in *. cbn [fst snd] in *.
    rewrite lookup_reset, Hr. simpl. eauto.
Qed.

Lemma reset_clears_count_and_flag_witness :
  ∃ r',
    limits (store (post_public_create Sample.insert Sample.select
                     Sample.two_days Sample.env Sample.anon_with_token
                     Sample.challenged Sample.gated_store []))
      !! "203.0.113.7" = Some r'
    ∧ count r' = 0 ∧ captchaRequired r' = false.
Proof.
  exact (proj2 (reset_clears_count_and_flag Sample.insert Sample.select
                  Sample.two_months Sample.two_days Sample.env
                  Sample.anon_with_token Sample.challenged Sample.gated_store
                  [] Sample.gated_record eq_refl) eq_refl).
Defined.



(** A request that carries a proof token while the store has no record
    for the caller.  The two tables come back as they were, so no record
    is created, and the handler goes on to the INSERT: the row built from
    the request is handed to the database, and what the database answers
    decides the reply.  The guard itself fails, and nothing is assigned,
    exactly when the caller's key names no inherited property. *)
Lemma reset_without_record_keeps_tables {Db : Type}
    (insert_temp_email : Db -> TempEmail -> option Db)
    (select_temp_email : Db -> string -> option (list TempEmail))
    (plus_48_hours : Z -> Z)
    (env : Env) (req : Request) (locals : Locals) (st : RateLimitStore)
    (d : Db) :
  Js.truthy (captchaResponse req) = true →
  limits st !! Js.property_key (clientIp req) = None →
  let o := post_public_create insert_temp_email select_temp_email
             plus_48_hours env req locals st d in
  let row := mkTempEmail (newId env) None (email req) (domainId req)
               (plus_48_hours (now env)) in
  store o = st
  ∧ (writes o = [] ↔ Js.inherited (Js.property_key (clientIp req)) = false)
  ∧ (insert_temp_email d row = None →
     response o = failed_to_create ∧ db o = d)
  ∧ (∀ d', insert_temp_email d row = Some d' →
       db o = d'
       ∧ response o = match select_temp_email d' (newId env) with
                      | Some rows => json (RowBody (head rows))
                      | None => failed_to_create
                      end).
Proof.
  intros Htok Hr o row. subst o row.
  unfold post_public_create. rewrite Htok, andb_false_r.
  rewrite run_public_create_writes, Htok.
  unfold public_identity. cbn [fst snd].
  rewrite reset_absent by done.
  rewrite store_insert_and_reply, writes_insert_and_reply.
  split; [done|]. split.
  - unfold public_create_writes, guarded_reset, has_entry.
    rewrite Htok. cbn [table]. rewrite Hr.
    destruct (Js.inherited _); split; done.
  - unfold insert_and_reply. split.
    + by intros ->.
    + intros d' ->. cbn [te_id]. by case_match.
Qed.

(** C10.  The guard in front of the two assignments is meant to test for
    a record, and misses the property names every plain object inherits.
    A caller that sends [x-forwarded-for: constructor] and a proof token
    has no record in the empty store, yet the guard passes and both
    assignments run, on the inherited object and not on a record.  The
    tables stay empty and the row is inserted; a caller with an ordinary
    key and no record gets no assignment at all. *)
Lemma reset_guard_passes_on_inherited_key :
  let o := post_public_create Sample.insert Sample.select Sample.two_days
             Sample.env Sample.prototype_caller Sample.challenged
             Sample.empty_store [] in
  let o' := post_public_create Sample.insert Sample.select Sample.two_days
              Sample.env Sample.stranger_with_token Sample.challenged
              Sample.empty_store [] in
  limits Sample.empty_store !! "constructor" = None
  ∧ has_entry Limits "constructor" Sample.empty_store = true
  ∧ writes o = [WriteCount Limits "constructor" 0;
                WriteCaptchaRequired Limits "constructor" false]
  ∧ store o = Sample.empty_store
  ∧ status (response o) = 200
  ∧ length (db o) = 1%nat
  ∧ writes o' = [].
Proof. vm_compute. repeat split. Qed.

(** ** Who mutates the records *)

Lemma guarded_reset_sub t k st :
  Forall (λ w, w ∈ reset_writes t k) (guarded_reset t k st).
Proof.
  unfold guarded_reset. destruct (has_entry t k st); [|constructor].
  apply Forall_forall. auto.
Qed.

Lemma create_writes_sub req st :
  Forall (λ w, w ∈ reset_writes (create_identity req).1 (create_identity req).2)
    (create_writes req st).
Proof.
  unfold create_writes, create_identity.
  destruct (Js.truthy (captchaResponse req)); [|constructor].
  destruct (user req); apply guarded_reset_sub.
Qed.

Lemma public_create_writes_sub req st :
  Forall (λ w, w ∈ reset_writes (public_identity req).1 (public_identity req).2)
    (public_create_writes req st).
Proof.
  unfold public_create_writes, public_identity.
  destruct (Js.truthy (captchaResponse req)); [|constructor].
  apply guarded_reset_sub.
Qed.

(** C6, as the specification words it, fails: on the public route a
    request with a proof token from a caller that has a record makes the
    handler assign [count] and [captchaRequired] of that record itself. *)
Lemma handler_writes_records_directly :
  ¬ store_mediated
      (post_public_create Sample.insert Sample.select Sample.two_days
         Sample.env Sample.anon_with_token Sample.challenged
         Sample.gated_store []).
Proof. unfold store_mediated. vm_compute. discriminate. Qed.

(** C6, amended.  The handlers assign record fields themselves, but only
    [count = 0] and [captchaRequired = false], addressed by the caller's
    own key, and only when the request carries a proof token.  The
    assignments never throw, and taken together they do to the two tables
    exactly what the specification's [reset] does for that key: a record
    under the key is cleared, and without one the tables stay as they
    are. *)
Theorem handler_writes_amount_to_reset {Db : Type}
    (insert_temp_email : Db -> TempEmail -> option Db)
    (select_temp_email : Db -> string -> option (list TempEmail))
    (plus_two_months plus_48_hours : Z -> Z)
    (env : Env) (req : Request) (locals : Locals) (st : RateLimitStore)
    (d : Db) :
  (let o := post_create insert_temp_email select_temp_email plus_two_months
              env req st d in
   Forall (λ w, w ∈ reset_writes (create_identity req).1 (create_identity req).2)
     (writes o)
   ∧ (Js.truthy (captchaResponse req) = false → writes o = [])
   ∧ run_writes (writes o) st = (store o, false)
   ∧ store o = if Js.truthy (captchaResponse req)
               then Gate.reset (create_identity req).1 (create_identity req).2 st
               else st)
  ∧
  (let o := post_public_create insert_temp_email select_temp_email
              plus_48_hours env req locals st d in
   Forall (λ w, w ∈ reset_writes (public_identity req).1 (public_identity req).2)
     (writes o)
   ∧ (Js.truthy (captchaResponse req) = false → writes o = [])
   ∧ run_writes (writes o) st = (store o, false)
   ∧ store o = if Js.truthy (captchaResponse req)
               then Gate.reset (public_identity req).1 (public_identity req).2 st
               else st).
Proof.
  split; intros o; subst o.
  - rewrite writes_post_create, store_post_create, run_create_writes.
    split; [apply create_writes_sub |].
    split; [|done].
    intros Htok. unfold create_writes. by rewrite Htok.
  - rewrite writes_post_public_create, store_post_public_create.
    destruct (Js.truthy (locals_captchaRequired locals)
              && negb (Js.truthy (captchaResponse req))) eqn:Hgate.
    + apply andb_true_iff in Hgate as [_ Htok].
      apply negb_true_iff in Htok. rewrite Htok.
      split; [constructor | done].
    + rewrite run_public_create_writes.
      split; [apply public_create_writes_sub |].
      split; [|done].
      intros Htok. unfold public_create_writes. by rewrite Htok.
Qed.

(** ** Identity resolution *)

(** C7, as the specification words it, fails: with an empty forwarded-for
    header the routes key the caller by the connection address, not by
    the (empty) header value. *)
Lemma empty_forwarded_header_falls_back :
  identity_key (create_identity Sample.anon_empty_header)
  ≠ spec_resolve Sample.anon_empty_header.
Proof. vm_compute. discriminate. Qed.

Lemma or_else_nonempty (a b : option string) :
  a ≠ Some "" →
  Js.property_key (Js.or_else a b)
  = match a with Some h => h | None => Js.property_key b end.
Proof.
  intros Ha. destruct a as [h|]; [|done]. simpl.
  destruct (String.eqb_spec h ""); [congruence | done].
Qed.

(** C7, amended.  A request with a principal is looked up in [userLimits]
    under the principal's id (the specification's ["user:" + id]);
    otherwise it is looked up in [limits] (the specification's ["ip:"])
    under the forwarded-for header value when that is present and not
    empty, and under the raw connection address when the header is absent
    or empty.  Resolution is a total function of the request alone, the
    public route resolves an anonymous request the same way, and every
    assignment of either handler lands on the resolved entry. *)
Theorem identity_resolution (req : Request) :
  (is_Some (user req) ∨ xForwardedFor req ≠ Some "" →
   identity_key (create_identity req) = spec_resolve req)
  ∧ (user req = None → xForwardedFor req = Some "" →
     create_identity req = (Limits, Js.property_key (remoteAddress req)))
  ∧ (user req = None → public_identity req = create_identity req)
  ∧ (∀ st w, w ∈ create_writes req st →
       (write_table w, write_key w) = create_identity req)
  ∧ (∀ st w, w ∈ public_create_writes req st →
       (write_table w, write_key w) = public_identity req).
Proof.
  repeat split.
  - unfold identity_key, create_identity, spec_resolve, clientIp.
    intros [[u Hu]|Hx].
    + by rewrite Hu.
    + destruct (user req); [done|]. cbn [fst snd].
      by rewrite or_else_nonempty.
  - intros Hu Hx. unfold create_identity, clientIp. by rewrite Hu, Hx.
  - intros Hu. unfold public_identity, create_identity. by rewrite Hu.
  - intros st w Hw.
    pose proof (create_writes_sub req st) as Hsub.
    rewrite Forall_forall in Hsub. specialize (Hsub w Hw).
    destruct (create_identity req) as [t k]. cbn [fst snd] in Hsub.
    unfold reset_writes in Hsub.
    apply elem_of_cons in Hsub as [->|Hsub]; [done|].
    apply elem_of_cons in Hsub as [->|Hsub]; [done|].
    by apply elem_of_nil in Hsub.
  - intros st w Hw.
    pose proof (public_create_writes_sub req st) as Hsub.
    rewrite Forall_forall in Hsub. specialize (Hsub w Hw).
    unfold public_identity in *. cbn [fst snd] in Hsub.
    unfold reset_writes in Hsub.
    apply elem_of_cons in Hsub as [->|Hsub]; [done|].
    apply elem_of_cons in Hsub as [->|Hsub]; [done|].
    by apply elem_of_nil in Hsub.
Qed.

Lemma identity_resolution_witness :
  identity_key (create_identity Sample.alice_with_token) = "user:u1"
  ∧ identity_key (create_identity Sample.anon_with_token) = "ip:203.0.113.7"
  ∧ create_identity Sample.anon_empty_header = (Limits, "10.0.0.1")
  ∧ public_identity Sample.anon_with_token
    = create_identity Sample.anon_with_token.
Proof.
  split; [|split; [|split]].
  - exact (proj1 (identity_resolution Sample.alice_with_token)
             (or_introl (ex_intro _ Sample.alice eq_refl))).
  - refine (proj1 (identity_resolution Sample.anon_with_token)
              (or_intror _)).
    discriminate.
  - exact (proj1 (proj2 (identity_resolution Sample.anon_empty_header))
             eq_refl eq_refl).
  - exact (proj1 (proj2 (proj2 (identity_resolution Sample.anon_with_token)))
             eq_refl).
Defined.

(** ** The authenticated route *)

(** The anonymous branch of the [/create] handler is live code: run on a
    request without [req.user] it clears the caller's entry of [limits]
    and then fails on [req.user.id]. *)
Example post_create_without_user :
  let o := post_create Sample.insert Sample.select Sample.two_months
             Sample.env Sample.anon_with_token Sample.gated_store [] in
  response o = failed_to_create
  ∧ limits (store o) !! "203.0.113.7" = Some (mkRecord 0 1699999000000 false)
  ∧ db o = [].
Proof. vm_compute. done. Qed.


Lemma create_writes_with_user u req st :
  create_writes (with_user (Some u) req) st
  = if Js.truthy (captchaResponse req)
    then guarded_reset UserLimits (user_id u) st
    else [].
Proof. done. Qed.

Lemma reset_writes_target t k w :
  w ∈ reset_writes t k → write_table w = t ∧ write_key w = k.
Proof.
  unfold reset_writes. intros Hw.
  apply elem_of_cons in Hw as [->|Hw]; [done|].
  apply elem_of_cons in Hw as [->|Hw]; [done|].
  by apply elem_of_nil in Hw.
Qed.



(** The same on the route, whatever the authentication layer and the gate
    middlewares are: the handler acts on the request and the store they
    hand on. *)
Lemma create_route_reset_follows_principal {Db : Type}
    (insert_temp_email : Db -> TempEmail -> option Db)
    (select_temp_email : Db -> string -> option (list TempEmail))
    (plus_two_months : Z -> Z)
    (authenticateToken : Request -> Response + option User)
    (gate : Request -> RateLimitStore -> Middleware)
    (env : Env) (req : Request) (st : RateLimitStore) (d : Db)
    (principal : option User) (locals : Locals) (st' : RateLimitStore) :
  authenticateToken req = inr principal →
  gate (with_user principal req) st = Next locals st' →
  let o := create_route insert_temp_email select_temp_email plus_two_months
             authenticateToken gate env req st d in
  match principal with
  | Some u =>
      Forall (λ w, write_table w = UserLimits ∧ write_key w = user_id u)
        (writes o)
      ∧ limits (store o) = limits st'
      ∧ store o = if Js.truthy (captchaResponse req)
                  then Gate.reset UserLimits (user_id u) st'
                  else st'
  | None =>
      Forall (λ w, write_table w = Limits
                   ∧ write_key w = Js.property_key (clientIp req))
        (writes o)
      ∧ userLimits (store o) = userLimits st'
      ∧ store o = (if Js.truthy (captchaResponse req)
                   then Gate.reset Limits (Js.property_key (clientIp req)) st'
                   else st')
      ∧ response o = failed_to_create
      ∧ status (response o) = 400
      ∧ db o = d
  end.
Proof.
  intros Hauth Hgate o. subst o. unfold create_route.
  rewrite Hauth, Hgate. destruct principal as [u|].
  - rewrite writes_post_create, store_post_create, run_create_writes.
    change (captchaResponse (with_user (Some u) req))
      with (captchaResponse req).
    change (create_identity (with_user (Some u) req))
      with (UserLimits, user_id u).
    cbn [fst snd]. split.
    + eapply Forall_impl;
        [apply (create_writes_sub (with_user (Some u) req))|].
      intros w Hw. by apply reset_writes_target in Hw.
    + destruct (Js.truthy (captchaResponse req)); [|done].
      split; [|done].
      unfold Gate.reset. apply (table_set_table_ne UserLimits Limits). done.
  - rewrite writes_post_create, store_post_create, run_create_writes.
    change (captchaResponse (with_user None req))
      with (captchaResponse req).
    change (create_identity (with_user None req))
      with (Limits, Js.property_key (clientIp req)).
    cbn [fst snd]. split.
    + eapply Forall_impl; [apply (create_writes_sub (with_user None req))|].
      intros w Hw. by apply reset_writes_target in Hw.
    + split.
      { destruct (Js.truthy (captchaResponse req)); [|done].
        unfold Gate.reset. apply (table_set_table_ne Limits UserLimits).
        done. }
      split; [done|].
      unfold post_create. rewrite run_create_writes.
      by cbn [user with_user response db].
Qed.

Lemma create_route_reset_follows_principal_witness :
  (let o := create_route Sample.insert Sample.select Sample.two_months
              Sample.auth_nobody Sample.open_gate Sample.env
              Sample.anon_with_token Sample.gated_store [] in
   Forall (λ w, write_table w = Limits ∧ write_key w = "203.0.113.7")
     (writes o)
   ∧ userLimits (store o) = userLimits Sample.gated_store
   ∧ store o = Gate.reset Limits "203.0.113.7" Sample.gated_store
   ∧ response o = failed_to_create
   ∧ status (response o) = 400
   ∧ db o = [])
  ∧
  (let o := create_route Sample.insert Sample.select Sample.two_months
              Sample.auth_alice Sample.open_gate Sample.env
              Sample.anon_with_token Sample.gated_store [] in
   Forall (λ w, write_table w = UserLimits ∧ write_key w = "u1") (writes o)
   ∧ limits (store o) = limits Sample.gated_store
   ∧ store o = Gate.reset UserLimits "u1" Sample.gated_store).
Proof.
  split.
  - exact (create_route_reset_follows_principal Sample.insert Sample.select
             Sample.two_months Sample.auth_nobody Sample.open_gate
             Sample.env Sample.anon_with_token Sample.gated_store []
             None (mkLocals Js.Undefined Js.Undefined) Sample.gated_store
             eq_refl eq_refl).
  - exact (create_route_reset_follows_principal Sample.insert Sample.select
             Sample.two_months Sample.auth_alice Sample.open_gate
             Sample.env Sample.anon_with_token Sample.gated_store []
             (Some Sample.alice) (mkLocals Js.Undefined Js.Undefined)
             Sample.gated_store eq_refl eq_refl).
Defined.

(** ** The admission core of the specification *)

Section GateFacts.

Import Gate.

Lemma get_insert t k r st t' k' :
  get t' k' (set_table t (<[k := r]> (table t st)) st)
  = if decide ((t, k) = (t', k')) then Some r else get t' k' st.
Proof.
  unfold get. destruct (decide (t = t')) as [<-|Ht].
  - rewrite table_set_table, lookup_insert.
    destruct (decide (k = k')) as [<-|Hk].
    + by rewrite decide_True.
    + rewrite decide_False; [done | congruence].
  - rewrite table_set_table_ne by done.
    rewrite decide_False; [done | congruence].
Qed.

Lemma get_alter f t k st t' k' :
  get t' k' (set_table t (alter f k (table t st)) st)
  = if decide ((t, k) = (t', k')) then f <$> get t k st else get t' k' st.
Proof.
  unfold get. destruct (decide (t = t')) as [<-|Ht].
  - rewrite table_set_table, lookup_alter.
    destruct (decide (k = k')) as [<-|Hk].
    + by rewrite decide_True.
    + rewrite decide_False; [done | congruence].
  - rewrite table_set_table_ne by done.
    rewrite decide_False; [done | congruence].
Qed.

Variable policy : Policy.

(** One cycle on the caller's own record. *)
Lemma count_and_evaluate_own now req st :
  ∃ st',
    count_and_evaluate policy now req st
    = (evaluate
         (increment (default (zero_record now)
            (get (create_identity req).1 (create_identity req).2 st)))
         policy, st')
    ∧ get (create_identity req).1 (create_identity req).2 st'
      = Some (next_record policy now
                (get (create_identity req).1 (create_identity req).2 st)).
Proof.
  unfold count_and_evaluate, next_record.
  destruct (create_identity req) as [t k]. cbn [fst snd].
  unfold observe.
  set (r := increment (default (zero_record now) (get t k st))).
  unfold evaluate_and_mark, evaluate, settle.
  destruct (captchaRequired r) eqn:Hflag.
  - eexists. split; [done|]. rewrite get_insert. by rewrite decide_True.
  - destruct (challengeThreshold policy <=? count r)%nat.
    + eexists. split; [done|]. unfold markChallenged.
      rewrite get_alter, decide_True by done.
      rewrite get_insert, decide_True by done. done.
    + eexists. split; [done|]. rewrite get_insert. by rewrite decide_True.
Qed.

(** One cycle leaves every other record alone. *)
Lemma count_and_evaluate_frame now req st t k :
  create_identity req ≠ (t, k) →
  get t k (count_and_evaluate policy now req st).2 = get t k st.
Proof.
  intros Hne. unfold count_and_evaluate.
  destruct (create_identity req) as [t' k']. unfold observe.
  set (r := increment (default (zero_record now) (get t' k' st))).
  unfold evaluate_and_mark.
  destruct (captchaRequired r).
  - cbn [snd]. rewrite get_insert. by rewrite decide_False.
  - destruct (challengeThreshold policy <=? count r)%nat; cbn [snd].
    + unfold markChallenged. rewrite get_alter, decide_False by done.
      rewrite get_insert. by rewrite decide_False.
    + rewrite get_insert. by rewrite decide_False.
Qed.

Variable oracle : Js.value → option string → OracleReply.

Lemma challenge_frame req st t k :
  create_identity req ≠ (t, k) →
  get t k (decision_store (challenge policy oracle req st)) = get t k st.
Proof.
  intros Hne. unfold challenge.
  destruct (Js.truthy (captchaResponse req)); [|done].
  destruct (verify _); [|done].
  destruct (create_identity req) as [t' k']. cbn [decision_store].
  unfold reset. rewrite get_alter. by rewrite decide_False.
Qed.

Lemma pipeline_frame now req st t k :
  create_identity req ≠ (t, k) →
  get t k (decision_store (pipeline policy oracle now req st)) = get t k st.
Proof.
  intros Hne. unfold pipeline.
  pose proof (count_and_evaluate_frame now req st t k Hne) as Hframe.
  destruct (count_and_evaluate policy now req st) as [[| |] st'];
    cbn [snd] in Hframe; cbn [decision_store]; [done| |done].
  by rewrite challenge_frame.
Qed.

Lemma evaluate_flagged r p : captchaRequired r = true → evaluate r p = Challenge.
Proof. intros Hr. unfold evaluate. by rewrite Hr. Qed.

(** A request of a flagged caller that does not get verified leaves the
    caller flagged, one attempt further. *)
Lemma pipeline_flagged now req st r :
  get (create_identity req).1 (create_identity req).2 st = Some r →
  captchaRequired r = true →
  (Js.truthy (captchaResponse req) = true →
   verify (oracle (captchaResponse req) (clientIp req)) = Rejected) →
  get (create_identity req).1 (create_identity req).2
    (decision_store (pipeline policy oracle now req st))
  = Some (increment r).
Proof.
  intros Hr Hflag Hrej. unfold pipeline.
  destruct (count_and_evaluate_own now req st) as (st' & Hce & Hget).
  unfold next_record, settle in Hget. rewrite Hce, Hr in *.
  change (default (zero_record now) (Some r)) with r in *.
  rewrite evaluate_flagged by done.
  change (captchaRequired (increment r)) with (captchaRequired r) in Hget.
  rewrite Hflag in Hget.
  unfold challenge. destruct (Js.truthy (captchaResponse req)); [|done].
  by rewrite Hrej.
Qed.

End GateFacts.

(** C2.  A record whose [captchaRequired] is set evaluates to [Challenge]
    whatever its count, and the flag of a caller stays set through any
    run of further requests, by this caller or others, as long as none of
    this caller's requests gets its proof verified (the only path to
    [reset]); the caller's next evaluation is again [Challenge]. *)
Theorem flag_forces_challenge_until_reset (policy : Gate.Policy)
    (oracle : Js.value → option string → Gate.OracleReply)
    (reqs : list (Z * Request)) (st : RateLimitStore)
    (t : Table) (k : string) (r : CounterRecord) :
  Gate.get t k st = Some r →
  captchaRequired r = true →
  Forall (λ nr : Z * Request,
            create_identity nr.2 = (t, k) →
            Js.truthy (captchaResponse nr.2) = true →
            Gate.verify (oracle (captchaResponse nr.2) (clientIp nr.2))
            = Gate.Rejected) reqs →
  (∀ n w, Gate.evaluate (mkRecord n w true) policy = Gate.Challenge)
  ∧ ∃ r',
      Gate.get t k (Gate.pipeline_all policy oracle reqs st) = Some r'
      ∧ captchaRequired r' = true
      ∧ Gate.evaluate r' policy = Gate.Challenge.
Proof.
  intros Hr Hflag Hall. split; [done|].
  revert st r Hr Hflag.
  induction Hall as [|[now req] reqs Hreq _ IH]; intros st r Hr Hflag.
  - exists r. by rewrite evaluate_flagged.
  - cbn [Gate.pipeline_all]. cbn [snd] in Hreq.
    destruct (decide (create_identity req = (t, k))) as [Hid|Hid].
    + apply (IH _ (Gate.increment r)); [|done].
      pose proof (pipeline_flagged policy oracle now req st r) as Hstep.
      rewrite Hid in Hstep. cbn [fst snd] in Hstep. by apply Hstep; auto.
    + apply (IH _ r); [|done]. by rewrite pipeline_frame.
Qed.

Lemma flag_forces_challenge_until_reset_witness :
  ∃ r',
    Gate.get Limits "203.0.113.7"
      (Gate.pipeline_all Sample.policy5 Sample.oracle_down
         [(1700000000000%Z, Sample.anon_no_token);
          (1700000001000%Z, Sample.anon_with_token);
          (1700000002000%Z, Sample.stranger_with_token)]
         Sample.gated_store) = Some r'
    ∧ captchaRequired r' = true
    ∧ Gate.evaluate r' Sample.policy5 = Gate.Challenge.
Proof.
  refine (proj2 (flag_forces_challenge_until_reset Sample.policy5
                   Sample.oracle_down _ Sample.gated_store Limits
                   "203.0.113.7" Sample.gated_record eq_refl eq_refl _)).
  repeat constructor.
Defined.

(** C4.  Scenario A: for an identity without a record and a challenge
    threshold of 5, the first four observe-plus-evaluate cycles yield
    [Allow] and leave the flag clear; the fifth yields [Challenge] and
    leaves the record with count 5 and [captchaRequired] set. *)
Theorem scenario_fresh_identity (policy : Gate.Policy) (req : Request)
    (st : RateLimitStore) (clock : list Z) :
  Gate.challengeThreshold policy = 5 →
  Gate.get (create_identity req).1 (create_identity req).2 st = None →
  length clock = 5 →
  (∃ st4 r4,
     Gate.cycles policy (take 4 clock) req st
     = ([Gate.Allow; Gate.Allow; Gate.Allow; Gate.Allow], st4)
     ∧ Gate.get (create_identity req).1 (create_identity req).2 st4 = Some r4
     ∧ count r4 = 4 ∧ captchaRequired r4 = false)
  ∧
  (∃ st5 r5,
     Gate.cycles policy clock req st
     = ([Gate.Allow; Gate.Allow; Gate.Allow; Gate.Allow; Gate.Challenge], st5)
     ∧ Gate.get (create_identity req).1 (create_identity req).2 st5 = Some r5
     ∧ count r5 = 5 ∧ captchaRequired r5 = true).
Proof.
  intros Hthr Hfresh Hlen.
  destruct clock as [|a [|b [|c [|e [|f [|]]]]]]; try discriminate.
  cbn [take Gate.cycles].
  destruct (count_and_evaluate_own policy a req st) as (st1 & E1 & G1).
  rewrite Hfresh in E1, G1.
  destruct (count_and_evaluate_own policy b req st1) as (st2 & E2 & G2).
  rewrite G1 in E2, G2.
  destruct (count_and_evaluate_own policy c req st2) as (st3 & E3 & G3).
  rewrite G2 in E3, G3.
  destruct (count_and_evaluate_own policy e req st3) as (st4 & E4 & G4).
  rewrite G3 in E4, G4.
  destruct (count_and_evaluate_own policy f req st4) as (st5 & E5 & G5).
  rewrite G4 in E5, G5.
  unfold Gate.next_record, Gate.settle, Gate.evaluate in *.
  rewrite Hthr in *.
  cbn [default from_option id Gate.zero_record Gate.increment count
       captchaRequired windowStart Nat.leb] in *.
  rewrite E1, E2, E3, E4, E5.
  split; eexists _, _; (split; [reflexivity|]); (split; [eassumption|]); done.
Qed.

Lemma scenario_fresh_identity_witness :
  ∃ st5 r5,
    Gate.cycles Sample.policy5 [1; 2; 3; 4; 5]%Z Sample.anon_no_token
      Sample.empty_store
    = ([Gate.Allow; Gate.Allow; Gate.Allow; Gate.Allow; Gate.Challenge], st5)
    ∧ Gate.get Limits "203.0.113.7" st5 = Some r5
    ∧ count r5 = 5 ∧ captchaRequired r5 = true.
Proof.
  exact (proj2 (scenario_fresh_identity Sample.policy5 Sample.anon_no_token
                  Sample.empty_store [1; 2; 3; 4; 5]%Z
                  eq_refl eq_refl eq_refl)).
Defined.

(** C5.  When the gate has asked for a challenge and the proof token that
    comes with the request is refused, or the verification call errors or
    times out, the request is refused with [VerificationFailed]; it does
    not proceed to the creation handler, and the store, hence the
    caller's count and flag, is the one the counting step left. *)
Theorem failed_verification_keeps_counter (policy : Gate.Policy)
    (oracle : Js.value → option string → Gate.OracleReply)
    (now : Z) (req : Request) (st st1 : RateLimitStore) :
  Gate.count_and_evaluate policy now req st = (Gate.Challenge, st1) →
  Js.truthy (captchaResponse req) = true →
  oracle (captchaResponse req) (clientIp req) ≠ Gate.Accepts →
  Gate.challenge policy oracle req st1 = Gate.Refused Gate.VerificationFailed st1
  ∧ Gate.pipeline policy oracle now req st
    = Gate.Refused Gate.VerificationFailed st1.
Proof.
  intros Hce Htok Hreply.
  assert (Hch : Gate.challenge policy oracle req st1
                = Gate.Refused Gate.VerificationFailed st1).
  { unfold Gate.challenge. rewrite Htok.
    by destruct (oracle (captchaResponse req) (clientIp req)). }
  split; [done|]. unfold Gate.pipeline. by rewrite Hce.
Qed.

Lemma failed_verification_keeps_counter_witness :
  Gate.pipeline Sample.policy5 Sample.oracle_down 1700000000000
    Sample.anon_with_token Sample.gated_store
  = Gate.Refused Gate.VerificationFailed
      (Gate.count_and_evaluate Sample.policy5 1700000000000
         Sample.anon_with_token Sample.gated_store).2.
Proof.
  refine (proj2 (failed_verification_keeps_counter Sample.policy5
                   Sample.oracle_down 1700000000000 Sample.anon_with_token
                   Sample.gated_store _ eq_refl eq_refl _)).
  discriminate.
Defined.

(** ** More about the creation handlers *)

Lemma reset_idempotent t k st :
  Gate.reset t k (Gate.reset t k st) = Gate.reset t k st.
Proof.
  unfold Gate.reset. rewrite table_set_table, set_table_twice. f_equal.
  apply map_eq. intros j. rewrite !lookup_alter.
  destruct (decide (k = j)); [|done].
  rewrite decide_True by done. by destruct (table t st !! k).
Qed.

Lemma lookup_reset_ne t k st t' k' :
  (t, k) ≠ (t', k') → table t' (Gate.reset t k st) !! k' = table t' st !! k'.
Proof.
  intros Hne. pose proof (get_alter (λ r, mkRecord 0 (windowStart r) false)
                            t k st t' k') as Hget.
  unfold Gate.get in Hget. unfold Gate.reset. rewrite Hget.
  by rewrite decide_False.
Qed.

Lemma reset_relaxes t k st t' k' :
  option_Forall2 relaxed (table t' st !! k') (table t' (Gate.reset t k st) !! k').
Proof.
  destruct (decide ((t, k) = (t', k'))) as [[= <- <-]|Hne].
  - rewrite lookup_reset. destruct (table t st !! k) as [r|]; constructor.
    repeat split; simpl; [lia | done].
  - rewrite lookup_reset_ne by done.
    destruct (table t' st !! k'); constructor. by repeat split.
Qed.

Section HandlerStores.

Context {Db : Type}.
Variable insert_temp_email : Db -> TempEmail -> option Db.
Variable select_temp_email : Db -> string -> option (list TempEmail).
Variable plus_two_months : Z -> Z.
Variable plus_48_hours : Z -> Z.

(** The store either handler leaves, in closed form. *)
Lemma store_post_create_closed env req st d :
  store (post_create insert_temp_email select_temp_email plus_two_months
           env req st d)
  = if Js.truthy (captchaResponse req)
    then Gate.reset (create_identity req).1 (create_identity req).2 st
    else st.
Proof. by rewrite store_post_create, run_create_writes. Qed.

Lemma store_post_public_create_closed env req locals st d :
  store (post_public_create insert_temp_email select_temp_email plus_48_hours
           env req locals st d)
  = if Js.truthy (captchaResponse req)
    then Gate.reset (public_identity req).1 (public_identity req).2 st
    else st.
Proof.
  rewrite store_post_public_create.
  destruct (Js.truthy (locals_captchaRequired locals)
            && negb (Js.truthy (captchaResponse req))) eqn:Hgate.
  - apply andb_true_iff in Hgate as [_ Htok].
    apply negb_true_iff in Htok. by rewrite Htok.
  - by rewrite run_public_create_writes.
Qed.

End HandlerStores.

(** X1.  Neither creation handler touches the record of anybody but the
    caller: every entry of either table other than the caller's own reads
    after the handler as it read before. *)
Theorem handlers_leave_other_records {Db : Type}
    (insert_temp_email : Db -> TempEmail -> option Db)
    (select_temp_email : Db -> string -> option (list TempEmail))
    (plus_two_months plus_48_hours : Z -> Z)
    (env : Env) (req : Request) (locals : Locals) (st : RateLimitStore)
    (d : Db) (t : Table) (k : string) :
  (create_identity req ≠ (t, k) →
   table t (store (post_create insert_temp_email select_temp_email
                     plus_two_months env req st d)) !! k
   = table t st !! k)
  ∧
  (public_identity req ≠ (t, k) →
   table t (store (post_public_create insert_temp_email select_temp_email
                     plus_48_hours env req locals st d)) !! k
   = table t st !! k).
Proof.
  split; intros Hne.
  - rewrite store_post_create_closed.
    destruct (Js.truthy (captchaResponse req)); [|done].
    apply lookup_reset_ne. by destruct (create_identity req).
  - rewrite store_post_public_create_closed.
    destruct (Js.truthy (captchaResponse req)); [|done].
    by apply lookup_reset_ne.
Qed.

Lemma handlers_leave_other_records_witness :
  userLimits (store (post_public_create Sample.insert Sample.select
                       Sample.two_days Sample.env Sample.anon_with_token
                       Sample.challenged Sample.gated_store []))
    !! "u1" = Some Sample.gated_record.
Proof.
  refine (proj2 (handlers_leave_other_records Sample.insert Sample.select
                   Sample.two_months Sample.two_days Sample.env
                   Sample.anon_with_token Sample.challenged
                   Sample.gated_store [] UserLimits "u1") _).
  discriminate.
Defined.

(** X2.  The creation handlers only ever relax the gate.  Whatever the
    request, every key holds a record after the handler exactly if it held
    one before, and that record has the same window start, a count that is
    not larger and a flag that is not newly set. *)
Theorem handlers_only_relax {Db : Type}
    (insert_temp_email : Db -> TempEmail -> option Db)
    (select_temp_email : Db -> string -> option (list TempEmail))
    (plus_two_months plus_48_hours : Z -> Z)
    (env : Env) (req : Request) (locals : Locals) (st : RateLimitStore)
    (d : Db) (t : Table) (k : string) :
  option_Forall2 relaxed (table t st !! k)
    (table t (store (post_create insert_temp_email select_temp_email
                       plus_two_months env req st d)) !! k)
  ∧
  option_Forall2 relaxed (table t st !! k)
    (table t (store (post_public_create insert_temp_email select_temp_email
                       plus_48_hours env req locals st d)) !! k).
Proof.
  assert (Hsame : option_Forall2 relaxed (table t st !! k) (table t st !! k)).
  { destruct (table t st !! k); constructor. by repeat split. }
  split.
  - rewrite store_post_create_closed.
    destruct (Js.truthy (captchaResponse req)); [apply reset_relaxes | done].
  - rewrite store_post_public_create_closed.
    destruct (Js.truthy (captchaResponse req)); [apply reset_relaxes | done].
Qed.



(** X4.  A 200 reply of either creation route is sent only after the INSERT
    went through: the database is the one the INSERT returned, the row
    inserted carries the fresh id, the submitted address and domain (and,
    on [/create], the principal as owner), and the body is the first row
    the SELECT by that id returned. *)
Theorem created_reply_means_inserted {Db : Type}
    (insert_temp_email : Db -> TempEmail -> option Db)
    (select_temp_email : Db -> string -> option (list TempEmail))
    (plus_two_months plus_48_hours : Z -> Z)
    (env : Env) (req : Request) (locals : Locals) (st : RateLimitStore)
    (d : Db) :
  (let o := post_create insert_temp_email select_temp_email plus_two_months
              env req st d in
   status (response o) = 200 →
   ∃ u d' rows,
     user req = Some u
     ∧ insert_temp_email d
         (mkTempEmail (newId env) (Some (user_id u)) (email req)
            (domainId req) (plus_two_months (now env))) = Some d'
     ∧ select_temp_email d' (newId env) = Some rows
     ∧ db o = d' ∧ body (response o) = RowBody (head rows))
  ∧
  (let o := post_public_create insert_temp_email select_temp_email
              plus_48_hours env req locals st d in
   status (response o) = 200 →
   ∃ d' rows,
     insert_temp_email d
       (mkTempEmail (newId env) None (email req) (domainId req)
          (plus_48_hours (now env))) = Some d'
     ∧ select_temp_email d' (newId env) = Some rows
     ∧ db o = d' ∧ body (response o) = RowBody (head rows)).
Proof.
  split; intros o; subst o.
  - unfold post_create. rewrite run_create_writes.
    destruct (user req) as [u|]; [|discriminate].
    unfold insert_and_reply. cbn [te_id].
    destruct (insert_temp_email d _) as [d'|] eqn:Hins; [|discriminate].
    destruct (select_temp_email d' (newId env)) as [rows|] eqn:Hsel;
      [|discriminate].
    intros _. by exists u, d', rows.
  - unfold post_public_create.
    destruct (Js.truthy (locals_captchaRequired locals)
              && negb (Js.truthy (captchaResponse req))); [discriminate|].
    rewrite run_public_create_writes.
    unfold insert_and_reply. cbn [te_id].
    destruct (insert_temp_email d _) as [d'|] eqn:Hins; [|discriminate].
    destruct (select_temp_email d' (newId env)) as [rows|] eqn:Hsel;
      [|discriminate].
    intros _. by exists d', rows.
Qed.

Lemma created_reply_means_inserted_witness :
  ∃ d' rows,
    Sample.insert []
      (mkTempEmail "7c0e-01" None (Js.Str "new@mail.test") (Js.Num 3)
         (Sample.two_days 1700000000000)) = Some d'
    ∧ Sample.select d' "7c0e-01" = Some rows
    ∧ db (post_public_create Sample.insert Sample.select Sample.two_days
            Sample.env Sample.stranger_with_token Sample.challenged
            Sample.gated_store []) = d'
    ∧ body (response
              (post_public_create Sample.insert Sample.select Sample.two_days
                 Sample.env Sample.stranger_with_token Sample.challenged
                 Sample.gated_store []))
      = RowBody (head rows).
Proof.
  exact (proj2 (created_reply_means_inserted Sample.insert Sample.select
                  Sample.two_months Sample.two_days Sample.env
                  Sample.stranger_with_token Sample.challenged
                  Sample.gated_store []) eq_refl).
Defined.

(** X5.  The handler of the public route, run once the middleware chain
    has called [next()], answers with the CAPTCHA_REQUIRED payload exactly
    when [res.locals.captchaRequired] is truthy and the request has no
    proof token; every reply of the handler has status 200 or 400.  What
    the middlewares answer when they end the request themselves is not
    part of this statement. *)
Theorem captcha_reply_exactly_when_challenged {Db : Type}
    (insert_temp_email : Db -> TempEmail -> option Db)
    (select_temp_email : Db -> string -> option (list TempEmail))
    (plus_48_hours : Z -> Z)
    (env : Env) (req : Request) (locals : Locals) (st : RateLimitStore)
    (d : Db) :
  let o := post_public_create insert_temp_email select_temp_email
             plus_48_hours env req locals st d in
  ((∃ e r k m, body (response o) = CaptchaBody e r k m)
   ↔ Js.truthy (locals_captchaRequired locals) = true
     ∧ Js.truthy (captchaResponse req) = false)
  ∧ (status (response o) = 200 ∨ status (response o) = 400).
Proof.
  intros o. subst o. unfold post_public_create.
  destruct (Js.truthy (locals_captchaRequired locals)) eqn:Hreq;
    destruct (Js.truthy (captchaResponse req)) eqn:Htok; cbn [andb negb].
  2: { split; [|by right]. split; [done|]. intros _. cbn. eauto. }
  all: rewrite run_public_create_writes; unfold insert_and_reply;
    destruct (insert_temp_email d _) as [d'|];
    [destruct (select_temp_email d' _)|]; cbn;
    (split; [split; [intros (? & ? & ? & ? & [=]) | intros [? ?]; done]
            | auto]).
Qed.

(** X6.  Replaying a request changes nothing further: the store a creation
    handler leaves is a fixed point of the same request, whatever the
    database did in between. *)
Theorem replayed_request_keeps_store {Db : Type}
    (insert_temp_email : Db -> TempEmail -> option Db)
    (select_temp_email : Db -> string -> option (list TempEmail))
    (plus_two_months plus_48_hours : Z -> Z)
    (env env' : Env) (req : Request) (locals locals' : Locals)
    (st : RateLimitStore) (d d' : Db) :
  store (post_create insert_temp_email select_temp_email plus_two_months env'
           req
           (store (post_create insert_temp_email select_temp_email
                     plus_two_months env req st d)) d')
  = store (post_create insert_temp_email select_temp_email plus_two_months
             env req st d)
  ∧
  store (post_public_create insert_temp_email select_temp_email plus_48_hours
           env' req locals'
           (store (post_public_create insert_temp_email select_temp_email
                     plus_48_hours env req locals st d)) d')
  = store (post_public_create insert_temp_email select_temp_email
             plus_48_hours env req locals st d).
Proof.
  rewrite !store_post_create_closed, !store_post_public_create_closed.
  destruct (Js.truthy (captchaResponse req)); [|done].
  split; apply reset_idempotent.
Qed.

(** ** The listing routes *)

Lemma placeholders_app (a b : string) :
  placeholders (a ++ b) = (placeholders a + placeholders b)%nat.
Proof.
  induction a as [|c a IH]; [done|].
  simpl. rewrite IH. lia.
Qed.

(** X7.  Every query the three listing routes send binds exactly as many
    values as its text has [?] placeholders, whatever the search term, the
    ids and the paging values are; a search term is always bound, never
    spliced into the text. *)
Theorem listing_queries_bind_every_placeholder
    (userId id search : string) (limit offset : Z) :
  Forall (λ q : string * list Param, placeholders q.1 = length q.2)
    [emails_count_query userId search;
     emails_data_query userId search limit offset;
     received_count_query id userId;
     received_data_query id userId limit offset;
     admin_count_query;
     admin_data_query limit offset].
Proof.
  unfold emails_count_query, emails_data_query.
  destruct (negb (String.eqb search "")); repeat constructor.
Qed.

Lemma number_or_nonzero n d : d ≠ 0%Z → number_or n d ≠ 0%Z.
Proof.
  intros Hd. destruct n as [|z]; [done|]. simpl.
  destruct (Z.eqb_spec z 0); done.
Qed.

Lemma ceil_div_bounds (a b : Z) :
  (0 < b)%Z → ((ceil_div a b - 1) * b < a ≤ ceil_div a b * b)%Z.
Proof.
  intros Hb. unfold ceil_div.
  pose proof (Z.div_mod (- a) b ltac:(lia)) as Hdm.
  pose proof (Z.mod_pos_bound (- a) b Hb) as Hmod.
  nia.
Qed.

Lemma metadata_of_sound totalCount p l :
  p ≠ 0%Z → l ≠ 0%Z → sound_metadata (metadata_of totalCount p l).
Proof.
  intros Hp Hl. unfold sound_metadata. cbn. repeat split; try done.
  all: by apply ceil_div_bounds.
Qed.

(** X8.  A listing reply describes the window that was queried, as long
    as the total, the page, the limit and the offset are safe integers
    (below [2^53] in absolute value, where the doubles of the routes are
    exact).  In each
    of the three routes the rows are those of the data query run with
    LIMIT [limit] and OFFSET [(page - 1) * limit] for the [page] and
    [limit] reported, [total] is what the counting query returned, neither
    [page] nor [limit] is 0 (so [total / limit] never divides by zero),
    and for a positive limit [pages] is the least page count that holds
    [total] rows. *)
Theorem listing_reply_describes_window {Row : Type}
    (parseInt : option string -> Number)
    (query_total : string * list Param -> option Z)
    (query_rows : string * list Param -> option (list Row))
    (passphrase : option string)
    (req : ListRequest) (rows : list Row) (md : Metadata) :
  safe_window md →
  (get_emails parseInt query_total query_rows req = Listing rows md →
   sound_metadata md
   ∧ ∃ u, lr_user req = Some u
     ∧ query_total (emails_count_query (user_id u) (search_of (lr_search req)))
       = Some (total md)
     ∧ query_rows (emails_data_query (user_id u) (search_of (lr_search req))
                     (limit md) (offset_of (page md) (limit md)))
       = Some rows)
  ∧
  (get_received parseInt query_total query_rows req = Listing rows md →
   sound_metadata md
   ∧ ∃ u, lr_user req = Some u
     ∧ query_total (received_count_query (lr_id req) (user_id u))
       = Some (total md)
     ∧ query_rows (received_data_query (lr_id req) (user_id u)
                     (limit md) (offset_of (page md) (limit md)))
       = Some rows)
  ∧
  (get_admin_all parseInt query_total query_rows passphrase req
   = Listing rows md →
   sound_metadata md
   ∧ query_total admin_count_query = Some (total md)
   ∧ query_rows (admin_data_query (limit md) (offset_of (page md) (limit md)))
     = Some rows).
Proof.
  intros _. split; [|split].
  1, 2: unfold get_emails, get_received; destruct (lr_user req) as [u|];
        [|discriminate].
  3: unfold get_admin_all; destruct (negb _); [discriminate|].
  all: unfold count_then_list;
    destruct (query_total _) as [n|] eqn:Hn; [|discriminate];
    destruct (query_rows _) as [rs|] eqn:Hrs; [|discriminate];
    intros [= <- <-].
  1, 2: split; [apply metadata_of_sound; by apply number_or_nonzero
               | by exists u].
  split; [apply metadata_of_sound; by apply number_or_nonzero | done].
Qed.

Lemma listing_reply_describes_window_witness :
  safe_window (mkMetadata 23 3 10 3)
  ∧ sound_metadata (mkMetadata 23 3 10 3)
  ∧ (λ _ : string * list Param, Some 23%Z) admin_count_query = Some 23%Z
  ∧ (λ _ : string * list Param, Some [1; 2; 3])
      (admin_data_query 10 (offset_of 3 10)) = Some [1; 2; 3].
Proof.
  assert (Hsafe : safe_window (mkMetadata 23 3 10 3)).
  { unfold safe_window, safe, offset_of. cbn [total page limit]. lia. }
  split; [exact Hsafe|].
  exact (proj2 (proj2 (listing_reply_describes_window
                         (λ q, match q with
                               | Some "3" => Int 3
                               | Some "10" => Int 10
                               | _ => NaN
                               end)
                         (λ _, Some 23%Z) (λ _, Some [1; 2; 3]) None
                         (mkListRequest None "" (Some "3") (Some "10") None None)
                         [1; 2; 3] (mkMetadata 23 3 10 3) Hsafe))
           eq_refl).
Defined.

(** X9.  For a positive limit and a non-negative total, all numbers
    involved being safe integers (below [2^53] in absolute value, where
    the doubles of the routes are exact), and numbering pages
    from 1: the window of a page starts inside the result exactly if the
    page is at most [pages], windows of consecutive pages are adjacent,
    and an offset is non-negative exactly if the page is at least 1 (a
    page below 1 is passed on to the database as a negative OFFSET). *)
Theorem page_window_within_pages (totalCount p l : Z) :
  safe totalCount → safe l → safe p → safe (p + 1) →
  safe (offset_of p l) → safe (offset_of (p + 1) l) →
  (0 < l)%Z → (0 ≤ totalCount)%Z →
  ((1 ≤ p)%Z →
   ((offset_of p l < totalCount)%Z ↔ (p ≤ ceil_div totalCount l)%Z))
  ∧ offset_of (p + 1) l = (offset_of p l + l)%Z
  ∧ ((0 ≤ offset_of p l)%Z ↔ (1 ≤ p)%Z).
Proof.
  intros _ _ _ _ _ _ Hl Ht.
  pose proof (ceil_div_bounds totalCount l Hl) as Hb.
  unfold offset_of. repeat split; intros; nia.
Qed.

Lemma page_window_within_pages_witness :
  ((offset_of 3 10 < 23)%Z ↔ (3 ≤ ceil_div 23 10)%Z)
  ∧ offset_of (3 + 1) 10 = (offset_of 3 10 + 10)%Z
  ∧ ((0 ≤ offset_of 3 10)%Z ↔ (1 ≤ 3)%Z).
Proof.
  assert (Hs : ∀ z, (0 ≤ z ≤ 1000)%Z → safe z).
  { unfold safe. change (2 ^ 53)%Z with 9007199254740992%Z. lia. }
  destruct (page_window_within_pages 23 3 10
              (Hs 23%Z ltac:(lia)) (Hs 10%Z ltac:(lia)) (Hs 3%Z ltac:(lia))
              (Hs (3 + 1)%Z ltac:(lia))
              (Hs (offset_of 3 10) ltac:(unfold offset_of; lia))
              (Hs (offset_of (3 + 1) 10) ltac:(unfold offset_of; lia))
              ltac:(lia) ltac:(lia))
    as (H1 & H2 & H3).
  exact (conj (H1 ltac:(lia)) (conj H2 H3)).
Defined.

(** X10.  [/admin/all] answers 403 "Unauthorized", without sending a query,
    exactly when the [admin-access] header differs from the configured
    passphrase.  The comparison is between values that may both be
    missing: when no passphrase is configured, the requests that carry no
    header at all are the ones let through. *)
Theorem admin_all_checks_passphrase {Row : Type}
    (parseInt : option string -> Number)
    (query_total : string * list Param -> option Z)
    (query_rows : string * list Param -> option (list Row))
    (passphrase : option string) (req : ListRequest) :
  (get_admin_all parseInt query_total query_rows passphrase req
   = Failure 403 "Unauthorized"
   ↔ lr_adminAccess req ≠ passphrase)
  ∧ (passphrase = None →
     (get_admin_all parseInt query_total query_rows passphrase req
      ≠ Failure 403 "Unauthorized"
      ↔ lr_adminAccess req = None)).
Proof.
  assert (Hiff : get_admin_all parseInt query_total query_rows passphrase req
                 = Failure 403 "Unauthorized"
                 ↔ lr_adminAccess req ≠ passphrase).
  { unfold get_admin_all, admin_authorized.
    destruct (bool_decide_reflect (lr_adminAccess req = passphrase)) as [He|He];
      cbn [negb]; [|done].
    split; [|done]. unfold count_then_list.
    destruct (query_total _); [destruct (query_rows _)|]; discriminate. }
  split; [done|]. intros ->. rewrite Hiff.
  destruct (lr_adminAccess req); split; try done.
  - intros Hnn. by destruct Hnn.
  - intros _ Hne. by apply Hne.
Qed.

Lemma admin_all_checks_passphrase_witness :
  get_admin_all (λ _, NaN) (λ _, Some 0%Z)
    (λ _, Some ([] : list nat)) None
    (mkListRequest None "" None None None None)
  ≠ Failure 403 "Unauthorized"
  ↔ lr_adminAccess (mkListRequest None "" None None None None) = None.
Proof.
  exact (proj2 (admin_all_checks_passphrase (λ _, NaN) (λ _, Some 0%Z)
                  (λ _, Some ([] : list nat)) None
                  (mkListRequest None "" None None None None)) eq_refl).
Defined.

(** ** The bulk mailer *)

Section BulkSendFacts.

Import BulkSend.

Lemma settled_counts (results : list Settled) :
  (length (filter (λ r, is_fulfilled r = true) results)
   + length (filter (λ r, is_rejected r = true) results))%nat
  = length results.
Proof.
  induction results as [|r results IH]; [done|].
  rewrite !filter_cons. unfold is_rejected in *.
  destruct r; simpl; repeat case_decide; simpl; try done; lia.
Qed.

Lemma details_addresses (users : list string) (results : list Settled) :
  length results = length users →
  d_email <$> zip_with detail_of users results = users.
Proof.
  revert results. induction users as [|u users IH]; intros [|r results] Hlen;
    try done.
  simpl. f_equal; [by destruct r | apply IH; simpl in Hlen; lia].
Qed.

Lemma details_fulfilled (users : list string) (results : list Settled) :
  length results = length users →
  length (filter (λ d, d_fulfilled d = true) (zip_with detail_of users results))
  = length (filter (λ r, is_fulfilled r = true) results).
Proof.
  revert results. induction users as [|u users IH]; intros [|r results] Hlen;
    try done.
  simpl. rewrite !filter_cons.
  destruct r; simpl; repeat case_decide; simpl; try done;
    rewrite IH; simpl in Hlen; lia.
Qed.

Lemma details_errors (users : list string) (results : list Settled) :
  Forall (λ d, d_fulfilled d = false ↔ is_Some (d_error d))
    (zip_with detail_of users results).
Proof.
  revert results. induction users as [|u users IH]; intros [|r results];
    simpl; [constructor..|].
  constructor; [|apply IH].
  destruct r; simpl; split; intros H; try done; try (by destruct H); eauto.
Qed.

End BulkSendFacts.

(** X11.  A "sent" reply of the bulk mailer accounts for every recipient
    exactly once: the recipients are the addresses the user query
    returned, [sendMail] was called once for each, in order, [details]
    lists them in that order, every one is counted as succeeded or as
    failed and never both ([succeeded + failed] is their number),
    [succeeded] is the number of details marked fulfilled, and a detail
    carries an error exactly if it is marked rejected. *)
Theorem bulk_send_accounts_for_every_recipient
    (passphrase : option string)
    (verify : option Json.t -> option string)
    (sendMail : option Json.t -> option Json.t -> nat -> string ->
                BulkSend.Settled)
    (select_emails : option Json.t -> string + list string)
    (adminAccess : option string) (b : BulkSend.Body)
    (message : string) (succeeded failed : nat)
    (details : list BulkSend.Detail) :
  let o := BulkSend.post_bulk_send passphrase verify sendMail select_emails
             adminAccess b in
  BulkSend.reply o = BulkSend.Sent message succeeded failed details →
  select_emails (BulkSend.userIds b) = inr (BulkSend.attempted o)
  ∧ BulkSend.d_email <$> details = BulkSend.attempted o
  ∧ (succeeded + failed)%nat = length (BulkSend.attempted o)
  ∧ succeeded
    = length (filter (λ d, BulkSend.d_fulfilled d = true) details)
  ∧ Forall (λ d, BulkSend.d_fulfilled d = false
                 ↔ is_Some (BulkSend.d_error d)) details.
Proof.
  intros o. subst o. unfold BulkSend.post_bulk_send.
  destruct (negb _); [discriminate|].
  destruct (BulkSend.missing_parameters b); [discriminate|].
  destruct (verify _); [discriminate|].
  destruct (select_emails _) as [?|users]; [discriminate|].
  cbn [BulkSend.reply BulkSend.attempted]. intros [= _ <- <- <-].
  set (results := imap _ users).
  assert (Hlen : length results = length users) by apply length_imap.
  split; [done|]. split; [by apply details_addresses|].
  split; [by rewrite settled_counts|].
  split; [by rewrite details_fulfilled | apply details_errors].
Qed.

Lemma bulk_send_accounts_for_every_recipient_witness :
  let o := BulkSend.post_bulk_send (Some "s3cret") (λ _, None)
             (λ _ _ i _, if (i =? 0)%nat then BulkSend.Fulfilled "250 OK"
                         else BulkSend.Rejected "550 no mailbox")
             (λ _, inr ["a@mail.test"; "b@mail.test"])
             (Some "s3cret")
             (BulkSend.mkBody (Some (Json.Arr [Json.Str "u1"; Json.Str "u2"]))
                (Some (Json.Obj [("subject", Json.Str "Hello");
                                 ("body", Json.Str "<p>Hi</p>")]))
                (Some (Json.Obj [("host", Json.Str "smtp.mail.test")]))) in
  BulkSend.attempted o = ["a@mail.test"; "b@mail.test"]
  ∧ BulkSend.d_email
      <$> [BulkSend.mkDetail "a@mail.test" true None;
           BulkSend.mkDetail "b@mail.test" false (Some "550 no mailbox")]
    = BulkSend.attempted o
  ∧ (1 + 1)%nat = length (BulkSend.attempted o).
Proof.
  intros o.
  destruct (bulk_send_accounts_for_every_recipient (Some "s3cret")
              (λ _, None)
              (λ _ _ i _, if (i =? 0)%nat then BulkSend.Fulfilled "250 OK"
                          else BulkSend.Rejected "550 no mailbox")
              (λ _, inr ["a@mail.test"; "b@mail.test"])
              (Some "s3cret")
              (BulkSend.mkBody (Some (Json.Arr [Json.Str "u1"; Json.Str "u2"]))
                 (Some (Json.Obj [("subject", Json.Str "Hello");
                                  ("body", Json.Str "<p>Hi</p>")]))
                 (Some (Json.Obj [("host", Json.Str "smtp.mail.test")])))
              "Sent 1 emails successfully, 1 failed" 1 1
              [BulkSend.mkDetail "a@mail.test" true None;
               BulkSend.mkDetail "b@mail.test" false (Some "550 no mailbox")]
              eq_refl) as (_ & H2 & H3 & _).
  exact (conj eq_refl (conj H2 H3)).
Defined.

(** X12.  The bulk mailer sends nothing before all of its checks have
    passed.  A request whose header differs from the passphrase gets 403
    whatever its body holds; a failure reply of any kind means no
    [sendMail] call was made; and if mail did go out, the header matched,
    no required parameter was missing, the SMTP connection had been
    verified and the recipients are the ones the user query returned. *)
Theorem bulk_send_sends_only_after_checks
    (passphrase : option string)
    (verify : option Json.t -> option string)
    (sendMail : option Json.t -> option Json.t -> nat -> string ->
                BulkSend.Settled)
    (select_emails : option Json.t -> string + list string)
    (adminAccess : option string) (b : BulkSend.Body) :
  let o := BulkSend.post_bulk_send passphrase verify sendMail select_emails
             adminAccess b in
  (adminAccess ≠ passphrase →
   o = BulkSend.mkOutcome (BulkSend.Failed 403 "Unauthorized" None) [])
  ∧ (∀ code error details,
       BulkSend.reply o = BulkSend.Failed code error details →
       BulkSend.attempted o = [] ∧ (code = 403 ∨ code = 400 ∨ code = 500))
  ∧ (BulkSend.attempted o ≠ [] →
     adminAccess = passphrase
     ∧ BulkSend.missing_parameters b = false
     ∧ verify (BulkSend.smtp b) = None
     ∧ select_emails (BulkSend.userIds b) = inr (BulkSend.attempted o)).
Proof.
  intros o. subst o. unfold BulkSend.post_bulk_send, admin_authorized.
  destruct (bool_decide_reflect (adminAccess = passphrase)) as [He|He];
    cbn [negb].
  2: { split; [done|]. split; [|done]. intros ??? [= <- _ _]. auto. }
  split; [done|].
  destruct (BulkSend.missing_parameters b).
  { split; [|done]. intros ??? [= <- _ _]. auto. }
  destruct (verify _).
  { split; [|done]. intros ??? [= <- _ _]. auto. }
  destruct (select_emails _) as [?|users].
  { split; [|done]. intros ??? [= <- _ _]. auto. }
  split; [done|]. by intros _.
Qed.

Lemma bulk_send_sends_only_after_checks_witness :
  BulkSend.post_bulk_send (Some "s3cret") (λ _, None)
    (λ _ _ _ _, BulkSend.Fulfilled "250 OK")
    (λ _, inr ["a@mail.test"]) None
    (BulkSend.mkBody (Some (Json.Arr [Json.Str "u1"]))
       (Some (Json.Obj [("subject", Json.Str "Hello");
                        ("body", Json.Str "<p>Hi</p>")]))
       (Some (Json.Obj [])))
  = BulkSend.mkOutcome (BulkSend.Failed 403 "Unauthorized" None) [].
Proof.
  refine (proj1 (bulk_send_sends_only_after_checks (Some "s3cret")
                   (λ _, None) (λ _ _ _ _, BulkSend.Fulfilled "250 OK")
                   (λ _, inr ["a@mail.test"]) None _) _).
  discriminate.
Defined.

(** ** The admin panel *)

(** X13.  What the panel posts, the server accepts: whenever
    [handleSendEmails] gets as far as the request, the body it sends has
    every parameter the bulk mailer requires, so with the right passphrase
    the server never answers 403 or 400; the only failure left is a 500
    from the SMTP connection or the database. *)
Theorem panel_request_passes_server_checks (st : Panel.State)
    (b : BulkSend.Body) :
  Panel.handleSendEmails st = Panel.Post b →
  BulkSend.missing_parameters b = false
  ∧ ∀ passphrase verify sendMail select_emails code error details,
      BulkSend.reply
        (BulkSend.post_bulk_send passphrase verify sendMail select_emails
           passphrase b)
      = BulkSend.Failed code error details →
      code = 500.
Proof.
  unfold Panel.handleSendEmails.
  destruct (Nat.eqb_spec (size (Panel.selectedUsers st)) 0) as [|Hsize];
    [discriminate|].
  destruct (String.eqb_spec (Panel.subject st) "") as [|Hsubject];
    [discriminate|].
  destruct (String.eqb_spec (Panel.body st) "") as [|Hbody];
    [discriminate|].
  cbn [orb].
  destruct (_ || _ || _); [discriminate|]. intros [= <-].
  assert (Hok : BulkSend.missing_parameters (Panel.payload st) = false).
  { unfold BulkSend.missing_parameters, Panel.payload. cbn.
    rewrite length_fmap.
    change (length (elements (Panel.selectedUsers st)))
      with (size (Panel.selectedUsers st)).
    destruct (Z.eqb_spec (Z.of_nat (size (Panel.selectedUsers st))) 0);
      [lia|].
    destruct (String.eqb_spec (Panel.subject st) ""); [done|].
    by destruct (String.eqb_spec (Panel.body st) ""). }
  split; [done|]. intros passphrase verify sendMail select_emails.
  unfold BulkSend.post_bulk_send, admin_authorized.
  rewrite bool_decide_eq_true_2 by done. rewrite Hok. cbn [negb].
  destruct (verify _); [by intros ??? [= <- _ _]|].
  destruct (select_emails _); [by intros ??? [= <- _ _]|].
  discriminate.
Qed.

Lemma panel_request_passes_server_checks_witness :
  BulkSend.missing_parameters
    (Panel.payload
       (Panel.mkState ["u1"; "u2"] {[ "u2" ]} "Hello" "<p>Hi</p>"
          (Panel.mkSmtp "smtp.mail.test" 587 "mailer" "pw" "" "")
          ""))
  = false.
Proof.
  exact (proj1 (panel_request_passes_server_checks
                  (Panel.mkState ["u1"; "u2"] {[ "u2" ]} "Hello" "<p>Hi</p>"
                     (Panel.mkSmtp "smtp.mail.test" 587 "mailer" "pw" "" "")
                     "")
                  _ eq_refl)).
Defined.

Lemma remove_dups_length (l : list string) :
  (length (remove_dups l) ≤ length l)%nat
  ∧ (length (remove_dups l) = length l → NoDup l).
Proof.
  induction l as [|x l [IHle IHeq]]; [split; [done | constructor]|].
  simpl. destruct (decide_rel elem_of x l) as [Hin|Hin]; simpl.
  - split; [lia | intros ?; lia].
  - split; [lia|]. intros Hlen. constructor; [done | apply IHeq; lia].
Qed.

Lemma size_list_to_set_ids (l : list string) :
  size (list_to_set l : gset string) = length (remove_dups l).
Proof.
  rewrite <- (size_list_to_set (C := gset string) (remove_dups l))
    by apply NoDup_remove_dups.
  f_equal. apply set_eq. intros x.
  by rewrite !elem_of_list_to_set, elem_of_remove_dups.
Qed.

(** X14.  "Select all" on a selection whose size differs from the number
    of rows selects exactly the rows shown.  Pressed again it clears the
    selection when the rows have distinct ids; when two rows share an id
    the size of the full selection never equals the number of rows, and
    the second press selects everything again instead of clearing. *)
Theorem select_all_then_clear (st : Panel.State) :
  size (Panel.selectedUsers st) ≠ length (Panel.users st) →
  (∀ id, id ∈ Panel.selectedUsers (Panel.handleSelectAll st)
         ↔ id ∈ Panel.users st)
  ∧ (NoDup (Panel.users st) →
     Panel.selectedUsers (Panel.handleSelectAll (Panel.handleSelectAll st))
     = ∅)
  ∧ (¬ NoDup (Panel.users st) →
     Panel.handleSelectAll (Panel.handleSelectAll st)
     = Panel.handleSelectAll st).
Proof.
  intros Hsize.
  assert (Hall : Panel.handleSelectAll st
                 = Panel.with_selected (list_to_set (Panel.users st)) st).
  { unfold Panel.handleSelectAll.
    by destruct (Nat.eqb_spec (size (Panel.selectedUsers st))
                   (length (Panel.users st))). }
  rewrite Hall. split; [|split].
  - intros id. cbn. apply elem_of_list_to_set.
  - intros Hnd. unfold Panel.handleSelectAll. cbn.
    rewrite size_list_to_set by done. by rewrite Nat.eqb_refl.
  - intros Hdup. unfold Panel.handleSelectAll. cbn.
    rewrite size_list_to_set_ids.
    destruct (Nat.eqb_spec (length (remove_dups (Panel.users st)))
                (length (Panel.users st))) as [Heq|]; [|done].
    by apply remove_dups_length in Heq.
Qed.

Lemma select_all_then_clear_witness :
  Panel.selectedUsers
    (Panel.handleSelectAll
       (Panel.handleSelectAll
          (Panel.mkState ["u1"; "u2"] {[ "u2" ]} "" ""
             (Panel.mkSmtp "" 587 "" "" "" "") "")))
  = ∅.
Proof.
  refine (proj1 (proj2 (select_all_then_clear
                          (Panel.mkState ["u1"; "u2"] {[ "u2" ]} "" ""
                             (Panel.mkSmtp "" 587 "" "" "" "") "")
                          _)) _).
  - vm_compute. lia.
  - constructor; [set_solver|]. constructor; [set_solver|]. constructor.
Defined.

(** X15.  A row's checkbox flips the membership of that row's id and of no
    other; the size of the selection changes by exactly one, and ticking
    the same box twice restores the selection. *)
Theorem checkbox_toggles_one_row (id : string) (st : Panel.State) :
  (∀ other, other ≠ id →
     (other ∈ Panel.selectedUsers (Panel.toggle id st)
      ↔ other ∈ Panel.selectedUsers st))
  ∧ (id ∈ Panel.selectedUsers (Panel.toggle id st)
     ↔ id ∉ Panel.selectedUsers st)
  ∧ (if bool_decide (id ∈ Panel.selectedUsers st)
     then S (size (Panel.selectedUsers (Panel.toggle id st)))
          = size (Panel.selectedUsers st)
     else size (Panel.selectedUsers (Panel.toggle id st))
          = S (size (Panel.selectedUsers st)))
  ∧ Panel.toggle id (Panel.toggle id st) = st.
Proof.
  unfold Panel.toggle.
  destruct (bool_decide_reflect (id ∈ Panel.selectedUsers st)) as [Hin|Hin].
  - repeat split; try set_solver.
    + cbn. rewrite size_difference by set_solver.
      rewrite size_singleton.
      assert (size (Panel.selectedUsers st) ≠ 0); [|lia].
      intros Hz. apply size_empty_inv in Hz. set_solver.
    + cbn. rewrite bool_decide_eq_false_2 by set_solver.
      unfold Panel.with_selected. cbn. destruct st as [u s ? ? ? ?]. cbn in *.
      f_equal. apply set_eq. intros x.
      destruct (decide (x = id)); set_solver.
  - repeat split; try set_solver.
    + cbn. rewrite size_union by set_solver. rewrite size_singleton. lia.
    + cbn. rewrite bool_decide_eq_true_2 by set_solver.
      unfold Panel.with_selected. cbn. destruct st as [u s ? ? ? ?]. cbn in *.
      f_equal. set_solver.
Qed.

(** ** The sent-mail dialog *)

Lemma prefix_empty (s : string) : String.prefix "" s = true.
Proof. by destruct s. Qed.

Lemma prefix_refl (s : string) : String.prefix s s = true.
Proof.
  induction s as [|c s IH]; [done|]. simpl.
  by destruct (Ascii.ascii_dec c c).
Qed.

Lemma includes_unfold (s sub : string) :
  SentMail.includes s sub
  = String.prefix sub s
    || match s with
       | EmptyString => false
       | String _ s' => SentMail.includes s' sub
       end.
Proof. by destruct s. Qed.

Lemma includes_empty (s : string) : SentMail.includes s "" = true.
Proof. by rewrite includes_unfold, prefix_empty. Qed.

Lemma includes_refl (s : string) : SentMail.includes s s = true.
Proof. by rewrite includes_unfold, prefix_refl. Qed.

(** X16.  Searching the sent mails: with an empty search box every mail is
    listed (given that lower-casing the empty string gives the empty
    string), and a mail is always found by its full recipient address or
    its full subject, typed in any letter case. *)
Theorem search_finds_sent_mail (toLowerCase : string -> string)
    (st : SentMail.State) :
  toLowerCase "" = "" →
  (SentMail.searchTerm st = "" →
   SentMail.filteredEmails toLowerCase st = SentMail.sentEmails st)
  ∧ (∀ e, e ∈ SentMail.sentEmails st →
       toLowerCase (SentMail.to e) = toLowerCase (SentMail.searchTerm st)
       ∨ toLowerCase (SentMail.subject e)
         = toLowerCase (SentMail.searchTerm st) →
       e ∈ SentMail.filteredEmails toLowerCase st).
Proof.
  intros Hlower. unfold SentMail.filteredEmails. split.
  - intros ->. induction (SentMail.sentEmails st) as [|e l IH]; [done|].
    rewrite filter_cons, IH. case_decide as Hfound; [done|].
    exfalso. apply Hfound. unfold SentMail.found.
    by rewrite Hlower, includes_empty.
  - intros e He Hsame. apply list_elem_of_filter. split; [|done].
    unfold SentMail.found.
    destruct Hsame as [<-|<-]; rewrite includes_refl; [done|].
    apply orb_true_r.
Qed.

Lemma search_finds_sent_mail_witness :
  SentMail.filteredEmails (λ s, s)
    (SentMail.mkState
       [SentMail.mkSentEmail "m1" "ann@mail.test" "Hello" "2024-05-01" true;
        SentMail.mkSentEmail "m2" "bob@mail.test" "Re: Hello" "2024-05-02" false]
       "" "")
  = [SentMail.mkSentEmail "m1" "ann@mail.test" "Hello" "2024-05-01" true;
     SentMail.mkSentEmail "m2" "bob@mail.test" "Re: Hello" "2024-05-02" false].
Proof.
  exact (proj1 (search_finds_sent_mail (λ s, s)
                  (SentMail.mkState
                     [SentMail.mkSentEmail "m1" "ann@mail.test" "Hello"
                        "2024-05-01" true;
                      SentMail.mkSentEmail "m2" "bob@mail.test" "Re: Hello"
                        "2024-05-02" false]
                     "" "")
                  eq_refl) eq_refl).
Defined.

(** X17.  Deleting a sent mail while a search is active: when the server
    confirms, the visible list is the previous visible list without the
    mails of that id, in the same order, and the error line is untouched;
    when the server refuses, the list stays as it was and the error line
    shows the server's message, or "Failed to delete email" when there is
    none. *)
Theorem delete_sent_mail_updates_view (toLowerCase : string -> string)
    (answer : option (option string)) (target : string)
    (st : SentMail.State) :
  let st' := SentMail.handleDelete answer target st in
  match answer with
  | None =>
      SentMail.filteredEmails toLowerCase st'
      = filter (λ e, SentMail.id e ≠ target)
          (SentMail.filteredEmails toLowerCase st)
      ∧ SentMail.error st' = SentMail.error st
  | Some message =>
      SentMail.filteredEmails toLowerCase st'
      = SentMail.filteredEmails toLowerCase st
      ∧ SentMail.error st' ≠ ""
      ∧ (SentMail.error st' = "Failed to delete email"
         ∨ Some (SentMail.error st') = message)
  end.
Proof.
  intros st'. subst st'. destruct answer as [message|]; cbn.
  - split; [done|].
    destruct message as [m|]; [|by split; [|left]].
    destruct (String.eqb_spec m ""); [by split; [|left] | by split; [|right]].
  - split; [|done]. unfold SentMail.filteredEmails. cbn.
    induction (SentMail.sentEmails st) as [|e l IH]; [done|].
    rewrite !filter_cons. repeat case_decide; rewrite ?filter_cons;
      repeat case_decide; try done; by rewrite IH.
Qed.

(** ** Deleting and fetching rows *)

Section MailboxFacts.

Import Mailbox.

Lemma delete_where_spec {A : Type} (cond : A → bool) (rows : list A) :
  (∀ r, r ∈ (delete_where cond rows).1 ↔ r ∈ rows ∧ cond r = false)
  ∧ (delete_where cond rows).1 `sublist_of` rows
  ∧ (length (delete_where cond rows).1 + (delete_where cond rows).2)%nat
    = length rows
  ∧ ((delete_where cond rows).2 = 0 ↔ ∀ r, r ∈ rows → cond r = false).
Proof.
  unfold delete_where. cbn [fst snd]. split; [|split; [|split]].
  - intros r. by rewrite list_elem_of_filter, (comm and).
  - apply sublist_filter.
  - induction rows as [|r rows IH]; [done|].
    rewrite !filter_cons. destruct (cond r); repeat case_decide; try done;
      simpl; lia.
  - induction rows as [|r rows IH]; [split; [by intros _ ? ?%elem_of_nil | done]|].
    rewrite filter_cons. destruct (cond r) eqn:Hr; case_decide; try done.
    + split; [done|]. intros Hall.
      specialize (Hall r ltac:(left)). congruence.
    + rewrite IH. split.
      * intros Hall x [->|Hx]%elem_of_cons; auto.
      * intros Hall x Hx. apply Hall. by right.
Qed.

End MailboxFacts.

(** X18.  Deleting a mailbox is all or nothing, and only for its owner.
    Whenever the route does not answer with success (a rejected call, no
    [req.user], or no mailbox of that id owned by the requester) both
    tables are exactly as before, although the first DELETE had already
    matched the received mails of that id.  On success the requester owned
    a mailbox of that id; afterwards the rows kept are exactly the
    mailboxes that are not that mailbox and the received mails of other
    mailboxes, in their old order. *)
Theorem delete_email_all_or_nothing (sql_eq : string -> string -> bool)
    (rejects : nat -> bool) (user : option User) (id : string)
    (db : Mailbox.Tables) :
  let result := Mailbox.delete_email sql_eq rejects user id db in
  (∀ code error, result.1 = Mailbox.Error code error → result.2 = db)
  ∧ (∀ message count, result.1 = Mailbox.Done message count →
       ∃ u, user = Some u
       ∧ (∃ row, row ∈ Mailbox.temp_emails db
                 ∧ Mailbox.owned_by sql_eq id (user_id u) row = true)
       ∧ (∀ row, row ∈ Mailbox.temp_emails result.2
                 ↔ row ∈ Mailbox.temp_emails db
                   ∧ Mailbox.owned_by sql_eq id (user_id u) row = false)
       ∧ (∀ row, row ∈ Mailbox.received_emails result.2
                 ↔ row ∈ Mailbox.received_emails db
                   ∧ sql_eq (Mailbox.re_temp_email_id row) id = false)
       ∧ Mailbox.temp_emails result.2 `sublist_of` Mailbox.temp_emails db
       ∧ Mailbox.received_emails result.2
         `sublist_of` Mailbox.received_emails db)
  ∧ (∀ u, user = Some u →
       (∀ row, row ∈ Mailbox.temp_emails db →
               Mailbox.owned_by sql_eq id (user_id u) row = false) →
       (∀ n, rejects n = false) →
       result = (Mailbox.Error 404 "Email not found", db)).
Proof.
  intros result. subst result. unfold Mailbox.delete_email.
  destruct (rejects 0) eqn:H0.
  { split; [done|]. split; [by intros|].
    intros ? _ _ Hno. by rewrite Hno in H0. }
  destruct (rejects 1) eqn:H1.
  { split; [done|]. split; [by intros|].
    intros ? _ _ Hno. by rewrite Hno in H1. }
  destruct (Mailbox.delete_where _ (Mailbox.received_emails db))
    as [received n] eqn:Hreceived.
  destruct user as [u|]; [|by split; [|split]].
  destruct (rejects 2) eqn:H2.
  { split; [done|]. split; [by intros|].
    intros ? _ _ Hno. by rewrite Hno in H2. }
  destruct (Mailbox.delete_where _ (Mailbox.temp_emails db))
    as [temp affected] eqn:Htemp.
  pose proof (delete_where_spec (Mailbox.owned_by sql_eq id (user_id u))
                (Mailbox.temp_emails db)) as (Ht1 & Ht2 & _ & Ht4).
  pose proof (delete_where_spec
                (λ r, sql_eq (Mailbox.re_temp_email_id r) id)
                (Mailbox.received_emails db)) as (Hr1 & Hr2 & _ & _).
  rewrite Htemp in Ht1, Ht2, Ht4. rewrite Hreceived in Hr1, Hr2.
  cbn [fst snd] in *.
  destruct (Nat.eqb_spec affected 0) as [Hz|Hnz].
  { split; [done|]. split; [by intros|]. by intros. }
  destruct (rejects 3) eqn:H3.
  { split; [done|]. split; [by intros|].
    intros ? _ _ Hno. by rewrite Hno in H3. }
  split; [by intros|]. split.
  - intros ?? _. exists u. split; [done|]. split; [|done].
    destruct (filter (λ r, Mailbox.owned_by sql_eq id (user_id u) r = true)
                (Mailbox.temp_emails db)) as [|row ?] eqn:Hf.
    + exfalso. apply Hnz, Ht4. intros r Hr.
      destruct (Mailbox.owned_by sql_eq id (user_id u) r) eqn:Ho; [|done].
      assert (r ∈ filter (λ r, Mailbox.owned_by sql_eq id (user_id u) r = true)
                (Mailbox.temp_emails db)) as Hin
        by by apply list_elem_of_filter.
      rewrite Hf in Hin. by apply elem_of_nil in Hin.
    + assert (row ∈ filter
                (λ r, Mailbox.owned_by sql_eq id (user_id u) r = true)
                (Mailbox.temp_emails db)) as Hin by (rewrite Hf; left).
      apply list_elem_of_filter in Hin as [? ?]. eauto.
  - intros u' [= <-] Hnone _. exfalso. by apply Hnz, Ht4.
Qed.

Lemma delete_email_all_or_nothing_witness :
  Mailbox.delete_email String.eqb (λ _, false) (Some (mkUser "u2")) "box-1"
    (Mailbox.mkTables
       [mkTempEmail "box-1" (Some "u1") (Js.Str "a@mail.test") (Js.Num 1) 0]
       [Mailbox.mkReceived "r1" "box-1" "hello"])
  = (Mailbox.Error 404 "Email not found",
     Mailbox.mkTables
       [mkTempEmail "box-1" (Some "u1") (Js.Str "a@mail.test") (Js.Num 1) 0]
       [Mailbox.mkReceived "r1" "box-1" "hello"]).
Proof.
  refine (proj2 (proj2 (delete_email_all_or_nothing String.eqb (λ _, false)
                          (Some (mkUser "u2")) "box-1"
                          (Mailbox.mkTables
                             [mkTempEmail "box-1" (Some "u1")
                                (Js.Str "a@mail.test") (Js.Num 1) 0]
                             [Mailbox.mkReceived "r1" "box-1" "hello"])))
            (mkUser "u2") eq_refl _ (λ _, eq_refl)).
  intros row Hrow. apply list_elem_of_singleton in Hrow. by subst row.
Defined.

Lemma owned_rows_found (sql_eq : string → string → bool) (id userId : string)
    (rows : list TempEmail) :
  filter (λ r, Mailbox.owned_by sql_eq id userId r = true) rows ≠ [] ↔
  ∃ row, row ∈ rows ∧ Mailbox.owned_by sql_eq id userId row = true.
Proof.
  split.
  - destruct (filter _ rows) as [|row l] eqn:Hf; [done|]. intros _.
    assert (row ∈ filter (λ r, Mailbox.owned_by sql_eq id userId r = true) rows)
      as Hin by (rewrite Hf; left).
    apply list_elem_of_filter in Hin as [? ?]. eauto.
  - intros (row & Hin & Ho) Hf.
    assert (row ∈ filter (λ r, Mailbox.owned_by sql_eq id userId r = true) rows)
      as Hin' by by apply list_elem_of_filter.
    rewrite Hf in Hin'. by apply elem_of_nil in Hin'.
Qed.

(** X19.  Bulk deletion of received mails touches only the named mailbox
    and only for its owner.  [temp_emails] is never changed.  A failure
    reply of any kind leaves [received_emails] as it was, and a body whose
    [emailIds] is missing, not an array or empty is refused with 400
    before anything is looked up.  On success the requester owns a mailbox
    of that id, the rows removed are exactly the received mails of that
    mailbox whose id is listed, the rest keeps its order, and [count] is
    the number of rows removed. *)
Theorem bulk_delete_only_listed_mails_of_own_mailbox
    (sql_eq : string -> string -> bool) (rejects : nat -> bool)
    (user : option User) (tempEmailId : string)
    (emailIds : Mailbox.EmailIds) (db : Mailbox.Tables) :
  let result :=
    Mailbox.bulk_delete_received sql_eq rejects user tempEmailId emailIds db in
  Mailbox.temp_emails result.2 = Mailbox.temp_emails db
  ∧ (∀ code error, result.1 = Mailbox.Error code error → result.2 = db)
  ∧ (emailIds = Mailbox.NotAnArray ∨ emailIds = Mailbox.IdArray [] →
     result = (Mailbox.Error 400 "Invalid email IDs", db))
  ∧ (∀ message count, result.1 = Mailbox.Done message count →
       ∃ u ids removed,
         user = Some u ∧ emailIds = Mailbox.IdArray ids
         ∧ count = Some removed
         ∧ (∃ row, row ∈ Mailbox.temp_emails db
                   ∧ Mailbox.owned_by sql_eq tempEmailId (user_id u) row = true)
         ∧ (∀ row, row ∈ Mailbox.received_emails result.2
                   ↔ row ∈ Mailbox.received_emails db
                     ∧ (existsb (sql_eq (Mailbox.re_id row)) ids
                        && sql_eq (Mailbox.re_temp_email_id row) tempEmailId)
                       = false)
         ∧ Mailbox.received_emails result.2
           `sublist_of` Mailbox.received_emails db
         ∧ (length (Mailbox.received_emails result.2) + removed)%nat
           = length (Mailbox.received_emails db)).
Proof.
  intros result. subst result. unfold Mailbox.bulk_delete_received.
  destruct emailIds as [|[|i ids]].
  1, 2: split; [done|]; split; [done|]; split; [done | by intros].
  destruct user as [u|].
  2: { split; [done|]. split; [done|].
       split; [by intros [|] | by intros]. }
  destruct (rejects 0).
  { split; [done|]. split; [done|]. split; [by intros [|] | by intros]. }
  destruct (filter _ (Mailbox.temp_emails db)) as [|owned ?] eqn:Howned.
  { split; [done|]. split; [done|]. split; [by intros [|] | by intros]. }
  destruct (rejects 1).
  { split; [done|]. split; [done|]. split; [by intros [|] | by intros]. }
  destruct (Mailbox.delete_where _ (Mailbox.received_emails db))
    as [received affected] eqn:Hdel.
  pose proof (delete_where_spec (Mailbox.listed_in sql_eq (i :: ids) tempEmailId)
                (Mailbox.received_emails db)) as (Hd1 & Hd2 & Hd3 & _).
  rewrite Hdel in Hd1, Hd2, Hd3. cbn [fst snd] in *.
  split; [done|]. split; [by intros|]. split; [by intros [|]|].
  intros ?? [= _ <-]. exists u, (i :: ids), affected.
  split; [done|]. split; [done|]. split; [done|].
  split; [apply owned_rows_found; by rewrite Howned|].
  split; [|by split].
  intros row. by rewrite Hd1.
Qed.

Lemma bulk_delete_only_listed_mails_of_own_mailbox_witness :
  Mailbox.bulk_delete_received String.eqb (λ _, false) (Some (mkUser "u1"))
    "box-1" Mailbox.NotAnArray
    (Mailbox.mkTables
       [mkTempEmail "box-1" (Some "u1") (Js.Str "a@mail.test") (Js.Num 1) 0]
       [Mailbox.mkReceived "r1" "box-1" "hello"])
  = (Mailbox.Error 400 "Invalid email IDs",
     Mailbox.mkTables
       [mkTempEmail "box-1" (Some "u1") (Js.Str "a@mail.test") (Js.Num 1) 0]
       [Mailbox.mkReceived "r1" "box-1" "hello"]).
Proof.
  exact (proj1 (proj2 (proj2
           (bulk_delete_only_listed_mails_of_own_mailbox String.eqb
              (λ _, false) (Some (mkUser "u1")) "box-1" Mailbox.NotAnArray
              (Mailbox.mkTables
                 [mkTempEmail "box-1" (Some "u1") (Js.Str "a@mail.test")
                    (Js.Num 1) 0]
                 [Mailbox.mkReceived "r1" "box-1" "hello"]))))
           (or_introl eq_refl)).
Defined.

(** X20.  Fetching a mailbox by id returns a row only to its owner: a row
    in the reply is a row of [temp_emails] with that id whose [user_id] is
    the requester's, and when the query goes through the reply is 404
    exactly if no such row exists.  A mailbox without owner (created on
    the public route) is never returned. *)
Theorem get_email_returns_only_own_row (sql_eq : string -> string -> bool)
    (rejects : bool) (user : option User) (id : string)
    (db : Mailbox.Tables) :
  (∀ row, Mailbox.get_email sql_eq rejects user id db = Mailbox.Found row →
     ∃ u owner, user = Some u ∧ row ∈ Mailbox.temp_emails db
       ∧ sql_eq (te_id row) id = true
       ∧ te_user_id row = Some owner ∧ sql_eq owner (user_id u) = true)
  ∧ (∀ u, user = Some u → rejects = false →
       (Mailbox.get_email sql_eq rejects user id db
        = Mailbox.Error 404 "Email not found"
        ↔ ∀ row, row ∈ Mailbox.temp_emails db →
                 Mailbox.owned_by sql_eq id (user_id u) row = false)).
Proof.
  unfold Mailbox.get_email. split.
  - intros row. destruct user as [u|]; [|done].
    destruct rejects; [done|].
    destruct (filter _ (Mailbox.temp_emails db)) as [|first ?] eqn:Hf; [done|].
    intros [= ->].
    assert (row ∈ filter (λ r, Mailbox.owned_by sql_eq id (user_id u) r = true)
              (Mailbox.temp_emails db)) as Hin by (rewrite Hf; left).
    apply list_elem_of_filter in Hin as [Ho Hin].
    unfold Mailbox.owned_by in Ho. apply andb_true_iff in Ho as [Hid Ho].
    destruct (te_user_id row) as [owner|]; [|done]. by exists u, owner.
  - intros u -> ->.
    pose proof (owned_rows_found sql_eq id (user_id u) (Mailbox.temp_emails db))
      as Hfound.
    destruct (filter _ (Mailbox.temp_emails db)) as [|first ?] eqn:Hf.
    + split; [|done]. intros _ row Hrow.
      destruct (Mailbox.owned_by sql_eq id (user_id u) row) eqn:Ho; [|done].
      exfalso. by apply (proj2 Hfound); [eauto|].
    + split; [done|]. intros Hnone. exfalso.
      destruct (proj1 Hfound ltac:(done)) as (row & Hrow & Ho).
      rewrite (Hnone row Hrow) in Ho. done.
Qed.

Lemma get_email_returns_only_own_row_witness :
  Mailbox.get_email String.eqb false (Some (mkUser "u1")) "box-1"
    (Mailbox.mkTables
       [mkTempEmail "box-1" None (Js.Str "a@mail.test") (Js.Num 1) 0] [])
  = Mailbox.Error 404 "Email not found"
  ↔ ∀ row,
      row ∈ [mkTempEmail "box-1" None (Js.Str "a@mail.test") (Js.Num 1) 0] →
      Mailbox.owned_by String.eqb "box-1" "u1" row = false.
Proof.
  exact (proj2 (get_email_returns_only_own_row String.eqb false
                  (Some (mkUser "u1")) "box-1"
                  (Mailbox.mkTables
                     [mkTempEmail "box-1" None (Js.Str "a@mail.test")
                        (Js.Num 1) 0] []))
           (mkUser "u1") eq_refl eq_refl).
Defined.

(** ** The user listing *)

Section UsersFacts.

Import Users.

Lemma clause_balanced cond fragment values s :
  placeholders fragment = length values →
  balanced s → balanced (clause cond fragment values s).
Proof.
  unfold balanced, clause. intros Hf Hs. destruct cond; [|done].
  cbn [fst snd]. rewrite placeholders_app, length_app. lia.
Qed.

Lemma clause_text cond fragment values values' s s' :
  s.1 = s'.1 →
  (clause cond fragment values s).1 = (clause cond fragment values' s').1.
Proof. unfold clause. intros Hs. destruct cond; [|done]. cbn. by rewrite Hs. Qed.

End UsersFacts.

(** X21.  The statement that lists users for the admin panel binds exactly
    one value per [?] placeholder, for every combination of filters and
    whatever the filter values are, as long as the two values that are
    spliced into its ORDER BY clause ([sortBy] and the upper-cased
    [sortOrder]) hold no question mark themselves. *)
Theorem users_statement_is_balanced
    (parseInt : option string -> Number) (toUpperCase : string -> string)
    (q : Users.Query) :
  placeholders (Users.sort_column q) = 0 →
  placeholders (Users.sort_direction toUpperCase q) = 0 →
  balanced (Users.statement parseInt toUpperCase q).
Proof.
  intros Hcolumn Hdirection. unfold Users.statement.
  apply clause_balanced; [reflexivity|].
  apply clause_balanced;
    [by rewrite !placeholders_app, Hcolumn, Hdirection|].
  apply clause_balanced; [reflexivity|].
  destruct (Users.equals "true" (Users.hasCustomDomain q));
    (apply clause_balanced; [vm_compute; reflexivity|]);
    destruct (Users.equals "true" (Users.isActive q));
    (apply clause_balanced; [vm_compute; reflexivity|]);
    do 5 (apply clause_balanced; [vm_compute; reflexivity|]);
    vm_compute; reflexivity.
Qed.

Lemma users_statement_is_balanced_witness :
  balanced
    (Users.statement (λ _, Int 5) (λ _, "ASC")
       (Users.mkQuery (Some "ann?") (Some "email_count") (Some "asc")
          (Some "2") (Some "5") (Some "1") None None None (Some "true") None)).
Proof.
  exact (users_statement_is_balanced (λ _, Int 5) (λ _, "ASC")
           (Users.mkQuery (Some "ann?") (Some "email_count") (Some "asc")
              (Some "2") (Some "5") (Some "1") None None None (Some "true")
              None)
           eq_refl eq_refl).
Defined.

(** X22.  Of everything a request carries, only [sortBy] and [sortOrder]
    reach the text of the user-listing statement verbatim.  Two requests
    with the same sort values, the same [isActive] and [hasCustomDomain]
    and the same filters switched on produce the same text, whatever the
    search term, the counts, the dates, the page and the limit are: those
    values travel as bound values only. *)
Theorem users_statement_splices_only_sort
    (parseInt parseInt' : option string -> Number)
    (toUpperCase : string -> string) (q q' : Users.Query) :
  Users.sortBy q = Users.sortBy q' →
  Users.sortOrder q = Users.sortOrder q' →
  Users.isActive q = Users.isActive q' →
  Users.hasCustomDomain q = Users.hasCustomDomain q' →
  Users.given (Users.search q) = Users.given (Users.search q') →
  Users.given (Users.emailCountMin q) = Users.given (Users.emailCountMin q') →
  Users.given (Users.emailCountMax q) = Users.given (Users.emailCountMax q') →
  Users.given (Users.dateStart q) = Users.given (Users.dateStart q') →
  Users.given (Users.dateEnd q) = Users.given (Users.dateEnd q') →
  (Users.statement parseInt toUpperCase q).1
  = (Users.statement parseInt' toUpperCase q').1.
Proof.
  intros HsortBy HsortOrder Hactive Hdomain Hsearch Hmin Hmax Hstart Hend.
  unfold Users.statement, Users.sort_column, Users.sort_direction.
  rewrite HsortBy, HsortOrder, Hactive, Hdomain, Hsearch, Hmin, Hmax, Hstart,
    Hend.
  apply clause_text, clause_text, clause_text.
  destruct (Users.equals "true" (Users.hasCustomDomain q'));
    apply clause_text;
    destruct (Users.equals "true" (Users.isActive q'));
    do 6 apply clause_text; reflexivity.
Qed.

Lemma users_statement_splices_only_sort_witness :
  (Users.statement (λ _, Int 5) (λ s, s)
     (Users.mkQuery (Some "ann") None None (Some "2") None None None
        (Some "2024-01-01") None None None)).1
  = (Users.statement (λ _, NaN) (λ s, s)
       (Users.mkQuery (Some "x' OR 1=1 --") None None None (Some "9") None
          None (Some "yesterday") None None None)).1.
Proof.
  exact (users_statement_splices_only_sort (λ _, Int 5) (λ _, NaN) (λ s, s)
           (Users.mkQuery (Some "ann") None None (Some "2") None None None
              (Some "2024-01-01") None None None)
           (Users.mkQuery (Some "x' OR 1=1 --") None None None (Some "9") None
              None (Some "yesterday") None None None)
           eq_refl eq_refl eq_refl eq_refl eq_refl eq_refl eq_refl eq_refl
           eq_refl).
Defined.

Section CountStatement.

Import Users.

Lemma append_assoc (a b c : string) : (a ++ b) ++ c = a ++ (b ++ c).
Proof.
  induction a as [|x a IH]; [done|].
  change (String x ((a ++ b) ++ c) = String x (a ++ (b ++ c))).
  by rewrite IH.
Qed.

Lemma append_empty (a : string) : a ++ "" = a.
Proof.
  induction a as [|x a IH]; [done|].
  change (String x (a ++ "") = String x a). by rewrite IH.
Qed.

Lemma replace_cons r c s :
  (if String.prefix "SELECT " (String c s)
   then greedy (skip 7 (String c s)) else None) = None →
  replace_select_from r (String c s) = String c <$> replace_select_from r s.
Proof. intros H. cbn [replace_select_from]. by rewrite H. Qed.

(** No match of the pattern starts inside the template literal: each of
    its two SELECTs is cut off from FROM by a line break. *)
Lemma replace_after_base r t :
  replace_select_from r (base ++ t)
  = String.append base <$> replace_select_from r t.
Proof.
  unfold base. lazy [String.append].
  repeat (rewrite replace_cons by (vm_compute; reflexivity)).
  destruct (replace_select_from r t); reflexivity.
Qed.

Lemma clause_extends cond fragment values s :
  (∃ t, s.1 = base ++ t) → ∃ t, (clause cond fragment values s).1 = base ++ t.
Proof.
  intros [t Ht]. unfold clause. destruct cond; [|by exists t].
  exists (t ++ fragment). cbn [fst]. by rewrite Ht, append_assoc.
Qed.

Lemma statement_extends_base parseInt toUpperCase q :
  ∃ t, (statement parseInt toUpperCase q).1 = base ++ t.
Proof.
  unfold statement.
  do 3 apply clause_extends.
  destruct (equals "true" (hasCustomDomain q)); apply clause_extends;
    destruct (equals "true" (isActive q));
    do 6 apply clause_extends; exists ""; cbn [fst];
    by rewrite append_empty.
Qed.

(** With no count filter, no domain filter and sort values the panel
    offers, no line of the statement holds SELECT before FROM. *)
Lemma count_statement_unchanged parseInt toUpperCase q :
  given (emailCountMin q) = false →
  given (emailCountMax q) = false →
  equals "true" (hasCustomDomain q) = false →
  equals "false" (hasCustomDomain q) = false →
  sort_column q
    ∈ ["created_at"; "last_login"; "last_activity_at"; "email_count"] →
  sort_direction toUpperCase q ∈ ["DESC"; "ASC"] →
  count_statement (statement parseInt toUpperCase q).1
  = (statement parseInt toUpperCase q).1.
Proof.
  intros Hmin Hmax Hdomain Hnodomain Hcolumn Hdirection.
  unfold statement. rewrite Hmin, Hmax, Hdomain, Hnodomain.
  remember (sort_column q) as column eqn:Hc.
  remember (sort_direction toUpperCase q) as direction eqn:Hd.
  clear Hc Hd.
  apply list_elem_of_In in Hcolumn, Hdirection.
  cbn [In] in Hcolumn, Hdirection.
  destruct Hcolumn as [<-|[<-|[<-|[<-|[]]]]];
    destruct Hdirection as [<-|[<-|[]]];
    destruct (given (search q));
    destruct (given (dateStart q));
    destruct (given (dateEnd q));
    destruct (equals "true" (isActive q));
    try destruct (equals "false" (isActive q));
    vm_compute; reflexivity.
Qed.

End CountStatement.

(** X23.  The statement that is meant to count the users is the listing
    statement with the first "SELECT ... FROM" that fits on one line
    replaced.  The select list of the listing statement spans several
    lines, so the replacement never reaches it: for every request the
    counting statement begins with the listing statement's own select
    list.  When neither a count filter nor a domain filter is set and the
    sort values are among those the panel offers, no line holds both
    words and the counting statement is the listing statement itself. *)
Theorem count_statement_keeps_select_list
    (parseInt : option string -> Number) (toUpperCase : string -> string)
    (q : Users.Query) :
  (∃ rest,
     Users.count_statement (Users.statement parseInt toUpperCase q).1
     = Users.base ++ rest)
  ∧ (Users.given (Users.emailCountMin q) = false →
     Users.given (Users.emailCountMax q) = false →
     Users.equals "true" (Users.hasCustomDomain q) = false →
     Users.equals "false" (Users.hasCustomDomain q) = false →
     Users.sort_column q
       ∈ ["created_at"; "last_login"; "last_activity_at"; "email_count"] →
     Users.sort_direction toUpperCase q ∈ ["DESC"; "ASC"] →
     Users.count_statement (Users.statement parseInt toUpperCase q).1
     = (Users.statement parseInt toUpperCase q).1).
Proof.
  split; [|apply count_statement_unchanged].
  destruct (statement_extends_base parseInt toUpperCase q) as [t ->].
  unfold Users.count_statement. rewrite replace_after_base.
  destruct (Users.replace_select_from _ t); cbn; eauto.
Qed.

Lemma count_statement_keeps_select_list_witness :
  Users.count_statement
    (Users.statement (λ _, NaN) (λ _, "DESC")
       (Users.mkQuery (Some "ann") None None None None None None None None
          (Some "true") None)).1
  = (Users.statement (λ _, NaN) (λ _, "DESC")
       (Users.mkQuery (Some "ann") None None None None None None None None
          (Some "true") None)).1.
Proof.
  refine (proj2 (count_statement_keeps_select_list (λ _, NaN) (λ _, "DESC")
                   (Users.mkQuery (Some "ann") None None None None None None
                      None None (Some "true") None))
            eq_refl eq_refl eq_refl eq_refl _ _).
  - apply list_elem_of_In. cbn. auto.
  - apply list_elem_of_In. cbn. auto.
Defined.



(** X25.  Deleting one received mail takes the mailbox owner and a mail of
    that mailbox.  [temp_emails] is never changed, every failure reply
    leaves [received_emails] as it was, and success means that the
    requester owns a mailbox of the given id, that a received mail with
    the given id existed in that mailbox, and that exactly the mails with
    that id in that mailbox are gone, the rest keeping its order; a mail
    of the same id in another mailbox is left alone. *)
Theorem delete_received_only_in_own_mailbox
    (sql_eq : string -> string -> bool) (rejects : nat -> bool)
    (user : option User) (tempEmailId emailId : string)
    (db : Mailbox.Tables) :
  let result :=
    Mailbox.delete_received sql_eq rejects user tempEmailId emailId db in
  Mailbox.temp_emails result.2 = Mailbox.temp_emails db
  ∧ (∀ code error, result.1 = Mailbox.Error code error → result.2 = db)
  ∧ (∀ message count, result.1 = Mailbox.Done message count →
       ∃ u, user = Some u
       ∧ (∃ row, row ∈ Mailbox.temp_emails db
                 ∧ Mailbox.owned_by sql_eq tempEmailId (user_id u) row = true)
       ∧ (∃ mail, mail ∈ Mailbox.received_emails db
                  ∧ sql_eq (Mailbox.re_id mail) emailId = true
                  ∧ sql_eq (Mailbox.re_temp_email_id mail) tempEmailId = true)
       ∧ (∀ mail, mail ∈ Mailbox.received_emails result.2
                  ↔ mail ∈ Mailbox.received_emails db
                    ∧ (sql_eq (Mailbox.re_id mail) emailId
                       && sql_eq (Mailbox.re_temp_email_id mail) tempEmailId)
                      = false)
       ∧ Mailbox.received_emails result.2
         `sublist_of` Mailbox.received_emails db).
Proof.
  intros result. subst result. unfold Mailbox.delete_received.
  destruct user as [u|]; [|by split; [|split]].
  destruct (rejects 0); [by split; [|split]|].
  destruct (filter _ (Mailbox.temp_emails db)) as [|owned ?] eqn:Howned;
    [by split; [|split]|].
  destruct (rejects 1); [by split; [|split]|].
  destruct (Mailbox.delete_where _ (Mailbox.received_emails db))
    as [received affected] eqn:Hdel.
  pose proof (delete_where_spec
                (λ r, sql_eq (Mailbox.re_id r) emailId
                      && sql_eq (Mailbox.re_temp_email_id r) tempEmailId)
                (Mailbox.received_emails db)) as (Hd1 & Hd2 & _ & Hd4).
  rewrite Hdel in Hd1, Hd2, Hd4. cbn [fst snd] in *.
  destruct (Nat.eqb_spec affected 0) as [Hz|Hnz]; [by split; [|split]|].
  split; [done|]. split; [done|]. intros ?? _. exists u.
  split; [done|].
  split; [apply owned_rows_found; by rewrite Howned|].
  split; [|by split].
  destruct (decide (Exists
              (λ r, sql_eq (Mailbox.re_id r) emailId
                    && sql_eq (Mailbox.re_temp_email_id r) tempEmailId = true)
              (Mailbox.received_emails db))) as [Hex|Hnex].
  - apply Exists_exists in Hex as (mail & Hin & Hmatch).
    apply andb_true_iff in Hmatch as [? ?]. eauto.
  - exfalso. apply Hnz, Hd4. intros r Hr.
    destruct (sql_eq (Mailbox.re_id r) emailId
              && sql_eq (Mailbox.re_temp_email_id r) tempEmailId) eqn:Hm;
      [|done].
    exfalso. apply Hnex, Exists_exists. eauto.
Qed.

Lemma delete_received_only_in_own_mailbox_witness :
  (Mailbox.delete_received String.eqb (λ _, false) (Some (mkUser "u2"))
     "box-1" "r1"
     (Mailbox.mkTables
        [mkTempEmail "box-1" (Some "u1") (Js.Str "a@mail.test") (Js.Num 1) 0]
        [Mailbox.mkReceived "r1" "box-1" "hello"])).2
  = Mailbox.mkTables
      [mkTempEmail "box-1" (Some "u1") (Js.Str "a@mail.test") (Js.Num 1) 0]
      [Mailbox.mkReceived "r1" "box-1" "hello"].
Proof.
  exact (proj1 (proj2
           (delete_received_only_in_own_mailbox String.eqb (λ _, false)
              (Some (mkUser "u2")) "box-1" "r1"
              (Mailbox.mkTables
                 [mkTempEmail "box-1" (Some "u1") (Js.Str "a@mail.test")
                    (Js.Num 1) 0]
                 [Mailbox.mkReceived "r1" "box-1" "hello"])))
           404 "Temporary email not found" eq_refl).
Defined.
